(** * Bot1: the moderation workflow of the mods catalogue

    A shallow embedding of [src/bot.py] (the Telegram conversation handlers),
    [src/models/mod.py], [src/models/admin.py] and [src/routes/main_routes.py],
    followed by the properties of the submission, review and category flows.

    Conventions of the embedding:
    - the record store is a list of rows per table, in insertion order;
    - [context.user_data] is a record with one optional field per key the
      handlers use; the inner buffers are finite maps from field name to text;
    - every call on the chat transport is recorded, in order, in a trace;
      a message the bot sends to another chat ([context.bot.send_message])
      may fail, replies on the triggering conversation do not;
    - the user-facing texts (Arabic f-strings in the source) are one
      constructor each of the type [Msg], carrying the interpolated values. *)

From Stdlib Require Import ZArith Ascii String List Sorted Permutation.
From stdpp Require Import base strings gmap list pretty sorting.

Local Open Scope string_scope.
Local Open Scope Z_scope.

(** ** Text helpers: the library functions the handlers call *)

Module Text.

Definition is_upper (c : ascii) : bool :=
  let n := nat_of_ascii c in (65 <=? n)%nat && (n <=? 90)%nat.

(** ASCII case folding, as the store's [lower]/ILIKE does on ASCII text. *)
Definition lower_ascii (c : ascii) : ascii :=
  if is_upper c then ascii_of_nat (nat_of_ascii c + 32) else c.

Fixpoint lower (s : string) : string :=
  match s with
  | EmptyString => EmptyString
  | String c s' => String (lower_ascii c) (lower s')
  end.

(** Text is UTF-8: a byte with the high bit set belongs to a character of
    several bytes, and a byte of the form [10xxxxxx] continues one. *)
Definition is_multibyte (c : ascii) : bool :=
  match c with Ascii _ _ _ _ _ _ _ b7 => b7 end.

Definition is_continuation (c : ascii) : bool :=
  match c with Ascii _ _ _ _ _ _ b6 b7 => b7 && negb b6 end.

Fixpoint skip_continuation (s : string) : string :=
  match s with
  | String c s' => if is_continuation c then skip_continuation s' else s
  | EmptyString => EmptyString
  end.

(** What is left of a text after the character that starts with the byte
    [d]. *)
Definition after_char (d : ascii) (s' : string) : string :=
  if is_multibyte d then skip_continuation s' else s'.

(** [like p s]: [s ILIKE p], which on the SQLite store is
    [lower(s) LIKE lower(p)], without an escape character: [%] stands for
    any run of characters, [_] for exactly one character, whatever the number
    of its bytes, and every other byte for itself up to the case of the
    ASCII letters; letters outside ASCII are not folded.  After [%] the match
    may resume at any byte: inside a character nothing but [_] can match,
    and [_] then takes the rest of that character, so on UTF-8 text this
    finds the matches that resuming at the characters finds and no other. *)
Fixpoint like (p s : string) : bool :=
  match p with
  | EmptyString => match s with EmptyString => true | _ => false end
  | String c p' =>
      if Ascii.eqb c "%" then
        (fix any (t : string) : bool :=
           like p' t || match t with
                        | EmptyString => false
                        | String _ t' => any t'
                        end) s
      else
        match s with
        | EmptyString => false
        | String d s' =>
            if Ascii.eqb c "_" then like p' (after_char d s')
            else Ascii.eqb (lower_ascii c) (lower_ascii d) && like p' s'
        end
  end.

(** [rfind_from c s]: the suffix of [s] that starts at the last [c]. *)
Fixpoint rfind_from (c : ascii) (s : string) : option string :=
  match s with
  | EmptyString => None
  | String a s' =>
      match rfind_from c s' with
      | Some r => Some r
      | None => if Ascii.eqb a c then Some s else None
      end
  end.

Definition basename (p : string) : string :=
  match rfind_from "/" p with
  | Some (String _ r) => r
  | _ => p
  end.

Fixpoint drop_leading_dots (s : string) : string :=
  match s with
  | String "." s' => drop_leading_dots s'
  | _ => s
  end.

(** [os.path.splitext(p)[1]]: the extension starts at the last dot of the
    last path component, leading dots of that component not counted. *)
Definition splitext_ext (p : string) : string :=
  default "" (rfind_from "." (drop_leading_dots (basename p))).

(** [s.split(sep)] for a one-character separator. *)
Fixpoint split (sep : ascii) (s : string) : list string :=
  match s with
  | EmptyString => [EmptyString]
  | String c s' =>
      if Ascii.eqb c sep then EmptyString :: split sep s'
      else match split sep s' with
           | w :: ws => String c w :: ws
           | [] => [String c EmptyString]
           end
  end.

(** [l[-2:]] *)
Definition last_two {A} (l : list A) : list A :=
  drop (length l - 2)%nat l.

Definition is_digit (c : ascii) : bool :=
  let n := nat_of_ascii c in (48 <=? n)%nat && (n <=? 57)%nat.

Fixpoint digits_value (s : string) (acc : Z) : option Z :=
  match s with
  | EmptyString => Some acc
  | String c s' =>
      if is_digit c
      then digits_value s' (10 * acc + (Z.of_nat (nat_of_ascii c) - 48))
      else None
  end.

(** [int(s)] on a decimal literal with an optional sign; [None] stands for
    [ValueError].  (Surrounding white space, which [int] also tolerates,
    never occurs in the callback data the bot builds and is read as
    malformed here.) *)
Definition int (s : string) : option Z :=
  match s with
  | EmptyString => None
  | String "-" r =>
      match r with EmptyString => None | _ => Z.opp <$> digits_value r 0 end
  | String "+" r =>
      match r with EmptyString => None | _ => digits_value r 0 end
  | _ => digits_value s 0
  end.

(** What is left of the subject when a pattern reaches [$]: the end of the
    string, or a single final newline. *)
Definition at_dollar (rest : string) : bool :=
  String.eqb rest "" || String.eqb rest (String "010" "").

(** The tail [.*$] of a pattern. *)
Fixpoint dot_star_dollar (rest : string) : bool :=
  at_dollar rest ||
  match rest with
  | EmptyString => false
  | String c r => negb (Ascii.eqb c "010") && dot_star_dollar r
  end.

(** [strip_prefix p s]: [Some r] when [s = p ++ r]. *)
Fixpoint strip_prefix (p s : string) : option string :=
  match p with
  | EmptyString => Some s
  | String c p' =>
      match s with
      | String d s' => if Ascii.eqb c d then strip_prefix p' s' else None
      | EmptyString => None
      end
  end.

(** [re.match("^lit$", s)] *)
Definition match_exact (lit s : string) : bool :=
  match strip_prefix lit s with
  | Some r => at_dollar r
  | None => false
  end.

(** [re.match("^lit", s)] *)
Definition match_prefix (lit s : string) : bool :=
  bool_decide (is_Some (strip_prefix lit s)).

End Text.

(** ** The record store *)

(** [Mod.status] is a text column; these are the three values written. *)
Definition pending_approval : string := "pending_approval".
Definition approved : string := "approved".
Definition rejected : string := "rejected".

Module Mod.
(** [class Mod(db.Model)], [src/models/mod.py]. Time stamps are seconds. *)
Record t := mk {
  id : Z;
  name : string;
  description : string;
  download_link : string;
  image_filename : option string;
  category_id : option Z;
  uploader_telegram_id : Z;
  status : string;
  created_at : Z;
  updated_at : Z;
  view_count : Z;
  download_count : Z
}.

Definition set_status (s : string) (now : Z) (m : t) : t :=
  mk (id m) (name m) (description m) (download_link m) (image_filename m)
     (category_id m) (uploader_telegram_id m) s (created_at m) now
     (view_count m) (download_count m).
End Mod.

Module Category.
(** Modelled from the spec: [src/models/category.py] is not part of the
    sources; section 3 gives a category an identity and a display name,
    which are the two attributes the handlers and routes read. *)
Record t := mk { id : Z; name : string }.
End Category.

Module Admin.
(** [class Admin(db.Model)], [src/models/admin.py]. *)
Record t := mk {
  telegram_id : Z;
  username : option string;
  role : string;
  created_at : Z
}.
End Admin.

Record Store := mkStore {
  mods : list Mod.t;
  categories : list Category.t;
  admins : list Admin.t
}.

Definition with_mods (f : list Mod.t → list Mod.t) (s : Store) : Store :=
  mkStore (f (mods s)) (categories s) (admins s).
Definition with_categories (f : list Category.t → list Category.t) (s : Store) : Store :=
  mkStore (mods s) (f (categories s)) (admins s).
Definition with_admins (f : list Admin.t → list Admin.t) (s : Store) : Store :=
  mkStore (mods s) (categories s) (f (admins s)).

(** The key a new row receives: one more than the largest key in use. *)
Definition next_id (ids : list Z) : Z := 1 + foldr Z.max 0 ids.

Module Query.

(** [Mod.query.get(mod_id)] *)
Definition get (ms : list Mod.t) (mod_id : Z) : option Mod.t :=
  List.find (λ m, Mod.id m =? mod_id) ms.

(** [filter_by(status=s)] *)
Definition filter_by_status (s : string) (ms : list Mod.t) : list Mod.t :=
  List.filter (λ m, String.eqb (Mod.status m) s) ms.

(** [order_by(key)]: a stable insertion sort for the order [le]. *)
Section OrderBy.
Context {A : Type} (le : A → A → bool).

Fixpoint insert_sorted (x : A) (l : list A) : list A :=
  match l with
  | [] => [x]
  | y :: l' => if le x y then x :: l else y :: insert_sorted x l'
  end.

Fixpoint order_by (l : list A) : list A :=
  match l with
  | [] => []
  | x :: l' => insert_sorted x (order_by l')
  end.
End OrderBy.

Definition created_at_asc (a b : Mod.t) : bool :=
  Mod.created_at a <=? Mod.created_at b.
Definition created_at_desc (a b : Mod.t) : bool :=
  Mod.created_at b <=? Mod.created_at a.
Definition name_asc (a b : Mod.t) : bool :=
  String.leb (Mod.name a) (Mod.name b).

(** [db.session.add(Mod(...)); db.session.commit()]: the columns left out
    of the constructor take their defaults. *)
Definition add_mod (now : Z) (name description download_link : string)
    (image_filename : string) (uploader : Z) (status : string)
    (s : Store) : Store :=
  with_mods (λ ms, (ms ++ [Mod.mk (next_id (Mod.id <$> ms)) name description
                             download_link (Some image_filename) None uploader
                             status now now 0 0])%list) s.

(** [mod.status = s; db.session.commit()] on the row with key [mod_id]. *)
Definition update_status (mod_id : Z) (status : string) (now : Z)
    (s : Store) : Store :=
  with_mods (List.map (λ m, if Mod.id m =? mod_id
                            then Mod.set_status status now m else m)) s.

(** [Category.query.filter(Category.name.ilike(pat)).first()] *)
Definition category_ilike_first (pat : string) (cs : list Category.t)
    : option Category.t :=
  List.find (λ c, Text.like pat (Category.name c)) cs.

Definition add_category (name : string) (s : Store) : Store :=
  with_categories
    (λ cs, (cs ++ [Category.mk (next_id (Category.id <$> cs)) name])%list) s.

End Query.


(** ** The chat side: states, updates, messages, effects *)

Definition OWNER_TELEGRAM_ID : Z := 7839645457.

(** The conversation states, [range(20)] in the source. *)
Inductive State :=
| ADD_MOD_NAME | ADD_MOD_DESCRIPTION | ADD_MOD_LINK | ADD_MOD_IMAGE
| ADD_MOD_CONFIRM
| CAT_MANAGE_MENU | ADD_CAT_GET_NAME | ADD_CAT_CONFIRM
| LIST_CATS_EDIT | EDIT_CAT_GET_NEW_NAME | EDIT_CAT_CONFIRM
| LIST_CATS_DELETE | DELETE_CAT_CONFIRM
| SUGGEST_MOD_NAME | SUGGEST_MOD_DESCRIPTION | SUGGEST_MOD_LINK
| SUGGEST_MOD_IMAGE | SUGGEST_MOD_CONFIRM
| REVIEW_SUGGESTED_MODS_LIST | REVIEW_MOD_ACTION.

(** What a handler returns: a next state, [ConversationHandler.END], or
    nothing ([None]: the conversation stays where it is). *)
Inductive Ret := Goto (s : State) | END | Unchanged.

Record User := mkUser {
  user_id : Z;
  first_name : string;
  username : option string
}.

(** An incoming update.  A text message that starts with a bot command is a
    [command_message]; [text_message] is what [filters.TEXT & ~filters.COMMAND]
    lets through and [photo_message] what [filters.PHOTO] does. *)
Inductive Update :=
| text_message (message_id : Z) (text : string)
| command_message (command : string)
| photo_message (message_id : Z) (file_unique_id : string)
    (file_path : option string)
| callback_query (data : string).

Record Event := mkEvent {
  effective_user : User;
  utcnow : Z;
  update : Update
}.

(** The texts the bot shows, one constructor per template of the source. *)
Inductive Msg :=
| OwnerOnly                       (* this action is for the owner only *)
| MainMenu (first_name : string) (pending_mods_count : Z)
| WelcomeUser (first_name : string)
| AskModName | AskSuggestedModName
| NameSaved | DescriptionSaved | LinkSaved
| ConfirmDetails (for_suggestion : bool) (name description link image : string)
| DatabaseUnavailable             (* error connecting to the database *)
| ModAdded (name : string) | ModAddFailed | AddModCancelled
| SuggestionReceived (name : string)
| NewSuggestion (first_name : string) (uid : Z)
    (name description link image : string)
| SuggestionSaveFailed | SuggestCancelled
| ModModelUnavailable
| NothingToReview                 (* no suggested mods to review now *)
| NoMorePending                   (* no more suggested mods to review *)
| SuggestedModNotFound            (* the suggested mod was not found *)
| ReviewCard (position total : Z) (uploader : Z)
    (name description link : string) (image : option string)
| ModToUpdateNotFound             (* no mod found to update its status *)
| ModApproved (name : string) | SuggestionApproved (name : string)
| ModRejected (name : string) | SuggestionRejected (name : string)
| UnknownAction | BadActionData | ActionFailed
| CategoriesMenu | NoCategories | CategoryList (cats : list (string * Z))
| CategoryModelUnavailable
| AskCategoryName | ConfirmCategory (name : string)
| CategoryExists (name : string) | CategoryAdded (name : string)
| CategoryAddFailed | AddCategoryCancelled
| Stats (total n_approved n_pending n_rejected : Z)
| UnknownCommand | HandlerError.

Inductive LogLine :=
| NoFlaskContext
| ErrorAddingMod | ErrorSavingSuggestion | ErrorProcessingReview
| ErrorAddingCategory
| CouldNotNotifySuggester (uid : Z)
| ExceptionWhileHandling.

(** An inline keyboard: the [callback_data] of its buttons, row by row. *)
Definition Keyboard := list (list string).

Inductive Effect :=
| answer                                          (* query.answer() *)
| edit_message_text (m : Msg) (kb : Keyboard)     (* on the pressed message *)
| reply_text (m : Msg) (kb : Keyboard)            (* update.message.reply_text *)
| send_message (chat_id : Z) (m : Msg) (delivered : bool)
| download_to_drive (image_filename : string)
| log_error (l : LogLine)
| log_warning (l : LogLine).

(** [context.user_data] *)
Record UserData := mkUserData {
  current_mod : option (gmap string string);
  suggested_mod : option (gmap string string);
  new_category : option (gmap string string);
  pending_mods_list : option (list Z);
  current_review_index : option Z;
  current_review_mod_id : option Z
}.

Definition empty_user_data : UserData :=
  mkUserData None None None None None None.

Inductive BufferKey := key_current_mod | key_suggested_mod | key_new_category.

Definition buffer (k : BufferKey) (ud : UserData) : option (gmap string string) :=
  match k with
  | key_current_mod => current_mod ud
  | key_suggested_mod => suggested_mod ud
  | key_new_category => new_category ud
  end.

Definition set_buffer (k : BufferKey) (v : option (gmap string string))
    (ud : UserData) : UserData :=
  match k with
  | key_current_mod =>
      mkUserData v (suggested_mod ud) (new_category ud) (pending_mods_list ud)
        (current_review_index ud) (current_review_mod_id ud)
  | key_suggested_mod =>
      mkUserData (current_mod ud) v (new_category ud) (pending_mods_list ud)
        (current_review_index ud) (current_review_mod_id ud)
  | key_new_category =>
      mkUserData (current_mod ud) (suggested_mod ud) v (pending_mods_list ud)
        (current_review_index ud) (current_review_mod_id ud)
  end.

Definition set_pending_mods_list (v : list Z) (ud : UserData) : UserData :=
  mkUserData (current_mod ud) (suggested_mod ud) (new_category ud) (Some v)
    (current_review_index ud) (current_review_mod_id ud).
Definition set_current_review_index (v : Z) (ud : UserData) : UserData :=
  mkUserData (current_mod ud) (suggested_mod ud) (new_category ud)
    (pending_mods_list ud) (Some v) (current_review_mod_id ud).
Definition set_current_review_mod_id (v : Z) (ud : UserData) : UserData :=
  mkUserData (current_mod ud) (suggested_mod ud) (new_category ud)
    (pending_mods_list ud) (current_review_index ud) (Some v).

(** What the process was started with. *)
Record Env := mkEnv {
  FLASK_APP_AVAILABLE : bool;    (* the models and [db] were imported *)
  reachable : Z → bool           (* chats the bot can write to *)
}.

(** ** The handler monad: state, trace and Python exceptions *)

Inductive Exn := KeyError | IndexError | ValueError | TelegramError.

Inductive Res (A : Type) := Ok (a : A) | Raise (e : Exn).
Arguments Ok {A} a.
Arguments Raise {A} e.

Record Ctx := mkCtx {
  store : Store;
  user_data : UserData;
  trace : list Effect
}.

Definition Bot (A : Type) : Type := Ctx → Ctx * Res A.

#[global] Instance Bot_ret : MRet Bot := λ A a c, (c, Ok a).
#[global] Instance Bot_bind : MBind Bot := λ A B f m c,
  match m c with
  | (c', Ok a) => f a c'
  | (c', Raise e) => (c', Raise e)
  end.

Definition raise {A} (e : Exn) : Bot A := λ c, (c, Raise e).

(** [try: body  except Exception as e: handler e] *)
Definition try_except {A} (body : Bot A) (handler : Exn → Bot A) : Bot A :=
  λ c, match body c with
       | (c', Ok a) => (c', Ok a)
       | (c', Raise e) => handler e c'
       end.

Definition emit (e : Effect) : Bot unit :=
  λ c, (mkCtx (store c) (user_data c) (trace c ++ [e])%list, Ok tt).
Definition get_store : Bot Store := λ c, (c, Ok (store c)).
Definition modify_store (f : Store → Store) : Bot unit :=
  λ c, (mkCtx (f (store c)) (user_data c) (trace c), Ok tt).
Definition get_user_data : Bot UserData := λ c, (c, Ok (user_data c)).
Definition modify_user_data (f : UserData → UserData) : Bot unit :=
  λ c, (mkCtx (store c) (f (user_data c)) (trace c), Ok tt).

(** [d[k]] on a Python dict *)
Definition subscript {A} (o : option A) : Bot A :=
  match o with Some a => mret a | None => raise KeyError end.

(** [l[i]] on a Python list, negative indices counting from the end *)
Definition list_index {A} (l : list A) (i : Z) : Bot A :=
  let n := Z.of_nat (length l) in
  let j := if 0 <=? i then i else n + i in
  if (0 <=? j) && (j <? n)
  then match l !! Z.to_nat j with Some a => mret a | None => raise IndexError end
  else raise IndexError.

(** [context.bot.send_message(chat_id=..., text=...)]: raises when the chat
    cannot be written to. *)
Definition bot_send_message (env : Env) (chat_id : Z) (m : Msg) : Bot unit :=
  if reachable env chat_id
  then emit (send_message chat_id m true)
  else emit (send_message chat_id m false);; raise TelegramError.

Definition is_owner (ev : Event) : bool :=
  user_id (effective_user ev) =? OWNER_TELEGRAM_ID.

(** The decorator [with_flask_context]. *)
Definition with_flask_context {A} (env : Env) (func : Bot A) : Bot A :=
  if FLASK_APP_AVAILABLE env then func
  else emit (log_warning NoFlaskContext);; func.

(** ** The handlers of [src/bot.py] *)

Section Handlers.
Context (env : Env) (ev : Event).

Let user := effective_user ev.
Let Mod_available := FLASK_APP_AVAILABLE env.

(** The first row of the owner's keyboard; the rows after it are cut off in
    the source file and no property below depends on them. *)
Definition main_menu_keyboard : Keyboard :=
  [["add_mod_start"; "manage_categories_menu"]].

(** [go_to_main_menu_owner]; [active_query] tells whether there is a
    callback query whose message can be edited. *)
Definition go_to_main_menu_owner (active_query : bool) : Bot unit :=
  with_flask_context env (
    s ← get_store;
    let pending_mods_count :=
      if Mod_available
      then Z.of_nat (length (Query.filter_by_status pending_approval (mods s)))
      else 0 in
    let message_text := MainMenu (first_name user) pending_mods_count in
    if active_query
    then emit (edit_message_text message_text main_menu_keyboard)
    else emit (reply_text message_text main_menu_keyboard)).

Definition start_command : Bot Ret :=
  with_flask_context env (
    (if is_owner ev then
       (if Mod_available then
          s ← get_store;
          match List.find (λ a, Admin.telegram_id a =? OWNER_TELEGRAM_ID)
                  (admins s) with
          | Some _ => mret tt
          | None =>
              modify_store (with_admins (λ l,
                (l ++ [Admin.mk OWNER_TELEGRAM_ID
                         (Some (match username user with
                                | Some "" | None => pretty OWNER_TELEGRAM_ID
                                | Some n => n
                                end))
                         "owner" (utcnow ev)])%list))
          end
        else mret tt);;
       go_to_main_menu_owner false
     else
       emit (reply_text (WelcomeUser (first_name user))
               [["suggest_new_mod_start"]]));;
    mret END).

(** *** Collecting the fields of a mod (owner add and user suggestion) *)

Definition state_key (for_suggestion : bool) : BufferKey :=
  if for_suggestion then key_suggested_mod else key_current_mod.

(** [context.user_data[state_key][field] = value] *)
Definition store_field (k : BufferKey) (field value : string) : Bot unit :=
  ud ← get_user_data;
  buf ← subscript (buffer k ud);
  modify_user_data (set_buffer k (Some (<[field := value]> buf))).

Definition _get_mod_name (text : string) (for_suggestion : bool) : Bot Ret :=
  store_field (state_key for_suggestion) "name" text;;
  emit (reply_text NameSaved []);;
  mret (Goto (if for_suggestion then SUGGEST_MOD_DESCRIPTION
              else ADD_MOD_DESCRIPTION)).

Definition _get_mod_description (text : string) (for_suggestion : bool)
    : Bot Ret :=
  store_field (state_key for_suggestion) "description" text;;
  emit (reply_text DescriptionSaved []);;
  mret (Goto (if for_suggestion then SUGGEST_MOD_LINK else ADD_MOD_LINK)).

Definition _get_mod_link (text : string) (for_suggestion : bool) : Bot Ret :=
  store_field (state_key for_suggestion) "download_link" text;;
  emit (reply_text LinkSaved []);;
  mret (Goto (if for_suggestion then SUGGEST_MOD_IMAGE else ADD_MOD_IMAGE)).

(** The name the received photo is stored under. *)
Definition image_filename_of (message_id : Z) (file_unique_id : string)
    (file_path : option string) : string :=
  let file_extension :=
    match file_path with
    | None | Some "" => ".jpg"
    | Some p => Text.splitext_ext p
    end in
  "mod_" +:+ pretty message_id +:+ "_" +:+ file_unique_id +:+ file_extension.

Definition _get_mod_image (message_id : Z) (file_unique_id : string)
    (file_path : option string) (for_suggestion : bool) : Bot Ret :=
  let k := state_key for_suggestion in
  let image_filename := image_filename_of message_id file_unique_id file_path in
  emit (download_to_drive image_filename);;
  store_field k "image_filename" image_filename;;
  ud ← get_user_data;
  mod_info ← subscript (buffer k ud);
  name ← subscript (mod_info !! "name");
  description ← subscript (mod_info !! "description");
  link ← subscript (mod_info !! "download_link");
  image ← subscript (mod_info !! "image_filename");
  let confirm_callback_yes :=
    if for_suggestion then "confirm_suggest_mod_yes" else "confirm_add_mod_yes" in
  let confirm_callback_cancel :=
    if for_suggestion then "confirm_suggest_mod_cancel"
    else "confirm_add_mod_cancel" in
  emit (reply_text (ConfirmDetails for_suggestion name description link image)
          [[confirm_callback_yes]; [confirm_callback_cancel]]);;
  mret (Goto (if for_suggestion then SUGGEST_MOD_CONFIRM else ADD_MOD_CONFIRM)).

(** *** Add mod (owner) *)

Definition add_mod_start_callback : Bot Ret :=
  with_flask_context env (
    emit answer;;
    if negb (is_owner ev) then
      emit (edit_message_text OwnerOnly []);;
      mret END
    else
      modify_user_data (set_buffer key_current_mod (Some ∅));;
      emit (edit_message_text AskModName []);;
      mret (Goto ADD_MOD_NAME)).

(** After a block that may [return] early: [Some r] is that return. *)
Definition or_continue (early : option Ret) (rest : Bot Ret) : Bot Ret :=
  match early with Some r => mret r | None => rest end.

Definition confirm_add_mod_callback (data : string) : Bot Ret :=
  with_flask_context env (
    emit answer;;
    early ←
      (if String.eqb data "confirm_add_mod_yes" then
         ud ← get_user_data;
         mod_data ← subscript (current_mod ud);
         if negb Mod_available then
           emit (edit_message_text DatabaseUnavailable []);;
           mret (Some END)
         else
           try_except
             (name ← subscript (mod_data !! "name");
              description ← subscript (mod_data !! "description");
              download_link ← subscript (mod_data !! "download_link");
              image_filename ← subscript (mod_data !! "image_filename");
              modify_store (Query.add_mod (utcnow ev) name description
                              download_link image_filename
                              OWNER_TELEGRAM_ID approved);;
              emit (edit_message_text (ModAdded name) []))
             (λ _,
               emit (log_error ErrorAddingMod);;
               emit (edit_message_text ModAddFailed []));;
           mret None
       else
         emit (edit_message_text AddModCancelled []);;
         mret None);
    or_continue early (
      modify_user_data (set_buffer key_current_mod None);;
      go_to_main_menu_owner true;;
      mret END)).

(** *** Suggest mod (user) *)

Definition suggest_new_mod_start_callback : Bot Ret :=
  emit answer;;
  modify_user_data (set_buffer key_suggested_mod (Some ∅));;
  emit (edit_message_text AskSuggestedModName []);;
  mret (Goto SUGGEST_MOD_NAME).

Definition confirm_suggest_mod_callback (data : string) : Bot Ret :=
  with_flask_context env (
    emit answer;;
    early ←
      (if String.eqb data "confirm_suggest_mod_yes" then
         ud ← get_user_data;
         mod_data ← subscript (suggested_mod ud);
         if negb Mod_available then
           emit (edit_message_text DatabaseUnavailable []);;
           mret (Some END)
         else
           try_except
             (name ← subscript (mod_data !! "name");
              description ← subscript (mod_data !! "description");
              download_link ← subscript (mod_data !! "download_link");
              image_filename ← subscript (mod_data !! "image_filename");
              modify_store (Query.add_mod (utcnow ev) name description
                              download_link image_filename
                              (user_id user) pending_approval);;
              emit (edit_message_text (SuggestionReceived name) []);;
              bot_send_message env OWNER_TELEGRAM_ID
                (NewSuggestion (first_name user) (user_id user)
                   name description download_link image_filename))
             (λ _,
               emit (log_error ErrorSavingSuggestion);;
               emit (edit_message_text SuggestionSaveFailed []));;
           mret None
       else
         emit (edit_message_text SuggestCancelled []);;
         mret None);
    or_continue early (
      modify_user_data (set_buffer key_suggested_mod None);;
      mret END)).

(** *** Review suggested mods (owner) *)

Definition review_keyboard (mod_id : Z) : Keyboard :=
  [["review_action_approve_" +:+ pretty mod_id];
   ["review_action_reject_" +:+ pretty mod_id];
   ["review_action_skip"];
   ["main_menu_from_review"]].

(** Every caller passes the callback query as [query_to_edit], so the
    texts are shown by editing its message. *)
Definition display_pending_mod_for_review : Bot Ret :=
  with_flask_context env (
    ud ← get_user_data;
    let idx := default 0 (current_review_index ud) in
    let pending_ids := default [] (pending_mods_list ud) in
    if Z.of_nat (length pending_ids) <=? idx then
      emit (edit_message_text NoMorePending []);;
      go_to_main_menu_owner true;;
      mret END
    else
      mod_id ← list_index pending_ids idx;
      if negb Mod_available then mret END
      else
        s ← get_store;
        match Query.get (mods s) mod_id with
        | None =>
            emit (edit_message_text SuggestedModNotFound []);;
            go_to_main_menu_owner true;;
            mret END
        | Some mod_to_review =>
            modify_user_data (set_current_review_mod_id mod_id);;
            emit (edit_message_text
                    (ReviewCard (idx + 1) (Z.of_nat (length pending_ids))
                       (Mod.uploader_telegram_id mod_to_review)
                       (Mod.name mod_to_review)
                       (Mod.description mod_to_review)
                       (Mod.download_link mod_to_review)
                       (Mod.image_filename mod_to_review))
                    (review_keyboard mod_id));;
            mret (Goto REVIEW_MOD_ACTION)
        end).

Definition review_suggested_mods_start_callback : Bot Ret :=
  with_flask_context env (
    emit answer;;
    if negb (is_owner ev) then
      emit (edit_message_text OwnerOnly []);;
      mret END
    else if negb Mod_available then
      emit (edit_message_text ModModelUnavailable []);;
      mret END
    else
      s ← get_store;
      let pending_mods :=
        Query.order_by Query.created_at_asc
          (Query.filter_by_status pending_approval (mods s)) in
      match pending_mods with
      | [] =>
          emit (edit_message_text NothingToReview []);;
          go_to_main_menu_owner true;;
          mret END
      | _ =>
          modify_user_data (set_pending_mods_list (Mod.id <$> pending_mods));;
          modify_user_data (set_current_review_index 0);;
          display_pending_mod_for_review
      end).

(** [context.user_data["current_review_index"] =
     context.user_data.get("current_review_index", 0) + 1] *)
Definition advance_review_index : Bot unit :=
  modify_user_data (λ ud,
    set_current_review_index (default 0 (current_review_index ud) + 1) ud).

(** The notification to the suggester, in its own [try]/[except]. *)
Definition notify_suggester (uploader : Z) (m : Msg) : Bot unit :=
  if negb (uploader =? OWNER_TELEGRAM_ID) then
    try_except (bot_send_message env uploader m)
      (λ _, emit (log_warning (CouldNotNotifySuggester uploader)))
  else mret tt.

Definition review_action_callback (action_data : string) : Bot Ret :=
  with_flask_context env (
    emit answer;;
    if negb Mod_available then
      emit (edit_message_text DatabaseUnavailable []);;
      mret END
    else if String.eqb action_data "review_action_skip" then
      advance_review_index;;
      display_pending_mod_for_review
    else if String.eqb action_data "main_menu_from_review" then
      go_to_main_menu_owner true;;
      mret END
    else
      early ←
        try_except
          (match Text.last_two (Text.split "_" action_data) with
           | [action_type; mod_id_str] =>
               match Text.int mod_id_str with
               | None => raise ValueError
               | Some mod_id =>
                   s ← get_store;
                   match Query.get (mods s) mod_id with
                   | None =>
                       emit (edit_message_text ModToUpdateNotFound []);;
                       mret (Some END)
                   | Some mod_to_update =>
                       let name := Mod.name mod_to_update in
                       let uploader := Mod.uploader_telegram_id mod_to_update in
                       if String.eqb action_type "approve" then
                         modify_store
                           (Query.update_status mod_id approved (utcnow ev));;
                         emit (edit_message_text (ModApproved name) []);;
                         notify_suggester uploader (SuggestionApproved name);;
                         mret None
                       else if String.eqb action_type "reject" then
                         modify_store
                           (Query.update_status mod_id rejected (utcnow ev));;
                         emit (edit_message_text (ModRejected name) []);;
                         notify_suggester uploader (SuggestionRejected name);;
                         mret None
                       else
                         emit (edit_message_text UnknownAction []);;
                         mret (Some END)
                   end
               end
           | _ => raise ValueError
           end)
          (λ e,
            match e with
            | ValueError =>
                emit (edit_message_text BadActionData []);;
                mret (Some END)
            | _ =>
                emit (log_error ErrorProcessingReview);;
                emit (edit_message_text ActionFailed []);;
                mret (Some END)
            end);
      or_continue early (
        advance_review_index;;
        display_pending_mod_for_review)).

(** *** Category management (owner) *)

Definition manage_categories_menu_callback : Bot Ret :=
  with_flask_context env (
    emit answer;;
    if negb (is_owner ev) then
      emit (edit_message_text OwnerOnly []);;
      mret END
    else
      emit (edit_message_text CategoriesMenu
              [["add_category_start"]; ["list_all_categories"];
               ["main_menu_from_cat_manage"]]);;
      mret (Goto CAT_MANAGE_MENU)).

Definition list_all_categories_callback : Bot Ret :=
  with_flask_context env (
    emit answer;;
    if negb Mod_available then
      emit (edit_message_text CategoryModelUnavailable []);;
      mret (Goto CAT_MANAGE_MENU)
    else
      s ← get_store;
      let cats :=
        Query.order_by (λ a b, String.leb (Category.name a) (Category.name b))
          (categories s) in
      let text :=
        match cats with
        | [] => NoCategories
        | _ => CategoryList ((λ c, (Category.name c, Category.id c)) <$> cats)
        end in
      emit (edit_message_text text
              [["add_category_start"]; ["manage_categories_menu_from_list"]]);;
      mret (Goto CAT_MANAGE_MENU)).

Definition add_category_start_callback : Bot Ret :=
  emit answer;;
  modify_user_data (set_buffer key_new_category (Some ∅));;
  emit (edit_message_text AskCategoryName []);;
  mret (Goto ADD_CAT_GET_NAME).

Definition get_new_category_name (text : string) : Bot Ret :=
  store_field key_new_category "name" text;;
  emit (reply_text (ConfirmCategory text)
          [["confirm_add_category_yes"]; ["confirm_add_category_cancel"]]);;
  mret (Goto ADD_CAT_CONFIRM).

Definition confirm_add_category_callback (data : string) : Bot Ret :=
  with_flask_context env (
    emit answer;;
    early ←
      (if String.eqb data "confirm_add_category_yes" then
         ud ← get_user_data;
         new_cat ← subscript (new_category ud);
         cat_name ← subscript (new_cat !! "name");
         if negb Mod_available then
           emit (edit_message_text DatabaseUnavailable []);;
           mret (Some (Goto CAT_MANAGE_MENU))
         else
           try_except
             (s ← get_store;
              match Query.category_ilike_first cat_name (categories s) with
              | Some _ =>
                  emit (edit_message_text (CategoryExists cat_name) [])
              | None =>
                  modify_store (Query.add_category cat_name);;
                  emit (edit_message_text (CategoryAdded cat_name) [])
              end)
             (λ _,
               emit (log_error ErrorAddingCategory);;
               emit (edit_message_text CategoryAddFailed []));;
           mret None
       else
         emit (edit_message_text AddCategoryCancelled []);;
         mret None);
    or_continue early (
      modify_user_data (set_buffer key_new_category None);;
      manage_categories_menu_callback;;
      mret (Goto CAT_MANAGE_MENU))).

(** *** Statistics, fall-backs *)

Definition view_stats_callback : Bot Ret :=
  with_flask_context env (
    emit answer;;
    if negb (is_owner ev) then
      emit (edit_message_text OwnerOnly []);;
      mret END
    else if negb Mod_available then
      emit (edit_message_text ModModelUnavailable []);;
      mret Unchanged
    else
      s ← get_store;
      let count st := Z.of_nat (length (Query.filter_by_status st (mods s))) in
      emit (edit_message_text
              (Stats (Z.of_nat (length (mods s))) (count approved)
                 (count pending_approval) (count rejected)) []);;
      go_to_main_menu_owner true;;
      mret Unchanged).

Definition unknown_command : Bot Ret :=
  emit (reply_text UnknownCommand []);;
  mret Unchanged.

(** The fall-back [lambda u, c: go_to_main_menu_owner(u, c, u.callback_query)] *)
Definition main_menu_fallback : Bot Ret :=
  go_to_main_menu_owner true;;
  mret Unchanged.

(** [error_handler], run on an exception that leaves a handler. *)
Definition error_handler : Bot unit :=
  emit (log_error ExceptionWhileHandling);;
  emit (reply_text HandlerError []).

End Handlers.

(** ** Routing: the handlers registered in [main] *)

(** A registered handler: [check_update] and the callback in one, [Some] of
    the callback applied to what it reads from the update when it accepts. *)
Definition Handler := Update → option (Env → Event → Bot Ret).

Definition CallbackQueryHandler (callback : Env → Event → string → Bot Ret)
    (pattern : string → bool) : Handler :=
  λ u, match u with
       | callback_query data =>
           if pattern data then Some (λ env ev, callback env ev data) else None
       | _ => None
       end.

(** [MessageHandler(filters.TEXT & ~filters.COMMAND, callback)] *)
Definition TextHandler (callback : string → Bot Ret) : Handler :=
  λ u, match u with
       | text_message _ text => Some (λ _ _, callback text)
       | _ => None
       end.

(** [MessageHandler(filters.PHOTO, callback)] *)
Definition PhotoHandler (callback : Z → string → option string → Bot Ret)
    : Handler :=
  λ u, match u with
       | photo_message mid fid path => Some (λ _ _, callback mid fid path)
       | _ => None
       end.

Definition CommandHandler (command : string) (callback : Env → Event → Bot Ret)
    : Handler :=
  λ u, match u with
       | command_message c => if String.eqb c command then Some callback else None
       | _ => None
       end.

(** [MessageHandler(filters.COMMAND, callback)] *)
Definition AnyCommandHandler (callback : Bot Ret) : Handler :=
  λ u, match u with
       | command_message _ => Some (λ _ _, callback)
       | _ => None
       end.

Module Pattern.
(** The regular expressions of [main], as [re.match] decides them. *)

(** [^(a|b|...)$] *)
Definition one_of (alts : list string) (s : string) : bool :=
  existsb (λ a, Text.match_exact a s) alts.

(** [^review_action_(approve|reject|skip)_.*$] *)
Definition review_action (s : string) : bool :=
  match Text.strip_prefix "review_action_" s with
  | Some r =>
      existsb (λ a, match Text.strip_prefix (a +:+ "_") r with
                    | Some r' => Text.dot_star_dollar r'
                    | None => false
                    end) ["approve"; "reject"; "skip"]
  | None => false
  end.
End Pattern.

(** A callback that does not read [query.data]. *)
Definition no_data (callback : Env → Event → Bot Ret)
    : Env → Event → string → Bot Ret :=
  λ env ev _, callback env ev.

Definition get_owner_mod_name text := _get_mod_name text false.
Definition get_owner_mod_description text := _get_mod_description text false.
Definition get_owner_mod_link text := _get_mod_link text false.
Definition get_owner_mod_image mid fid path := _get_mod_image mid fid path false.
Definition get_user_mod_name text := _get_mod_name text true.
Definition get_user_mod_description text := _get_mod_description text true.
Definition get_user_mod_link text := _get_mod_link text true.
Definition get_user_mod_image mid fid path := _get_mod_image mid fid path true.

Record ConversationHandler := mkConversationHandler {
  entry_points : list Handler;
  states : State → list Handler;
  fallbacks : list Handler
}.

Definition main_menu_lambda (prefix : string) : Handler :=
  CallbackQueryHandler (no_data main_menu_fallback) (Text.match_prefix prefix).

Definition main_menu_lambda_exact (lit : string) : Handler :=
  CallbackQueryHandler (no_data main_menu_fallback) (Pattern.one_of [lit]).

Definition add_mod_conv_handler : ConversationHandler :=
  mkConversationHandler
    [CallbackQueryHandler (no_data add_mod_start_callback)
       (Pattern.one_of ["add_mod_start"])]
    (λ st, match st with
           | ADD_MOD_NAME => [TextHandler get_owner_mod_name]
           | ADD_MOD_DESCRIPTION => [TextHandler get_owner_mod_description]
           | ADD_MOD_LINK => [TextHandler get_owner_mod_link]
           | ADD_MOD_IMAGE => [PhotoHandler get_owner_mod_image]
           | ADD_MOD_CONFIRM =>
               [CallbackQueryHandler confirm_add_mod_callback
                  (Pattern.one_of ["confirm_add_mod_yes"; "confirm_add_mod_cancel"])]
           | _ => []
           end)
    [CommandHandler "start" start_command; main_menu_lambda "main_menu_"].

Definition suggest_mod_conv_handler : ConversationHandler :=
  mkConversationHandler
    [CallbackQueryHandler (λ _ _ _, suggest_new_mod_start_callback)
       (Pattern.one_of ["suggest_new_mod_start"])]
    (λ st, match st with
           | SUGGEST_MOD_NAME => [TextHandler get_user_mod_name]
           | SUGGEST_MOD_DESCRIPTION => [TextHandler get_user_mod_description]
           | SUGGEST_MOD_LINK => [TextHandler get_user_mod_link]
           | SUGGEST_MOD_IMAGE => [PhotoHandler get_user_mod_image]
           | SUGGEST_MOD_CONFIRM =>
               [CallbackQueryHandler confirm_suggest_mod_callback
                  (Pattern.one_of ["confirm_suggest_mod_yes";
                                   "confirm_suggest_mod_cancel"])]
           | _ => []
           end)
    [CommandHandler "start" start_command].

Definition review_mods_conv_handler : ConversationHandler :=
  mkConversationHandler
    [CallbackQueryHandler (no_data review_suggested_mods_start_callback)
       (Pattern.one_of ["review_suggested_mods_start"])]
    (λ st, match st with
           | REVIEW_MOD_ACTION =>
               [CallbackQueryHandler review_action_callback Pattern.review_action]
           | _ => []
           end)
    [main_menu_lambda_exact "main_menu_from_review";
     CommandHandler "start" start_command].

Definition manage_categories_conv_handler : ConversationHandler :=
  mkConversationHandler
    [CallbackQueryHandler (no_data manage_categories_menu_callback)
       (Pattern.one_of ["manage_categories_menu"])]
    (λ st, match st with
           | CAT_MANAGE_MENU =>
               [CallbackQueryHandler (λ _ _ _, add_category_start_callback)
                  (Pattern.one_of ["add_category_start"]);
                CallbackQueryHandler (λ env _ _, list_all_categories_callback env)
                  (Pattern.one_of ["list_all_categories"]);
                main_menu_lambda_exact "main_menu_from_cat_manage";
                CallbackQueryHandler (no_data manage_categories_menu_callback)
                  (Pattern.one_of ["manage_categories_menu_from_list"])]
           | ADD_CAT_GET_NAME => [TextHandler get_new_category_name]
           | ADD_CAT_CONFIRM =>
               [CallbackQueryHandler confirm_add_category_callback
                  (Pattern.one_of ["confirm_add_category_yes";
                                   "confirm_add_category_cancel"])]
           | _ => []
           end)
    [CommandHandler "start" start_command; main_menu_lambda "main_menu_"].

Inductive ConvId :=
| add_mod_conv | suggest_mod_conv | review_mods_conv | manage_categories_conv.

Definition conversation (i : ConvId) : ConversationHandler :=
  match i with
  | add_mod_conv => add_mod_conv_handler
  | suggest_mod_conv => suggest_mod_conv_handler
  | review_mods_conv => review_mods_conv_handler
  | manage_categories_conv => manage_categories_conv_handler
  end.

Inductive AppHandler := Plain (h : Handler) | Conversation (i : ConvId).

(** [application.add_handler(...)], in registration order (one group). *)
Definition application : list AppHandler :=
  [Plain (CommandHandler "start" start_command);
   Conversation add_mod_conv;
   Conversation suggest_mod_conv;
   Conversation review_mods_conv;
   Conversation manage_categories_conv;
   Plain (CallbackQueryHandler (no_data view_stats_callback)
            (Pattern.one_of ["view_stats"]));
   Plain (AnyCommandHandler unknown_command)].

(** ** The running bot *)

(** Where a user stands in each of the four conversations. *)
Record ConvStates := mkConvStates {
  add_mod_state : option State;
  suggest_mod_state : option State;
  review_mods_state : option State;
  manage_categories_state : option State
}.

Definition conv_state (i : ConvId) (c : ConvStates) : option State :=
  match i with
  | add_mod_conv => add_mod_state c
  | suggest_mod_conv => suggest_mod_state c
  | review_mods_conv => review_mods_state c
  | manage_categories_conv => manage_categories_state c
  end.

Definition set_conv_state (i : ConvId) (v : option State) (c : ConvStates)
    : ConvStates :=
  match i with
  | add_mod_conv =>
      mkConvStates v (suggest_mod_state c) (review_mods_state c)
        (manage_categories_state c)
  | suggest_mod_conv =>
      mkConvStates (add_mod_state c) v (review_mods_state c)
        (manage_categories_state c)
  | review_mods_conv =>
      mkConvStates (add_mod_state c) (suggest_mod_state c) v
        (manage_categories_state c)
  | manage_categories_conv =>
      mkConvStates (add_mod_state c) (suggest_mod_state c)
        (review_mods_state c) v
  end.

(** What the bot keeps per user (private chats: one chat per user). *)
Record Session := mkSession {
  data : UserData;
  conv : ConvStates
}.

Definition new_session : Session :=
  mkSession empty_user_data (mkConvStates None None None None).

(** The whole system: the shared store, the sessions by user id, and what
    was done on the transport, each entry with the user whose update caused
    it. *)
Record World := mkWorld {
  db : Store;
  sessions : gmap Z Session;
  history : list (Z * Effect)
}.

Definition session (w : World) (uid : Z) : Session :=
  default new_session (sessions w !! uid).

Fixpoint first_match (hs : list Handler) (u : Update)
    : option (Env → Event → Bot Ret) :=
  match hs with
  | [] => None
  | h :: rest =>
      match h u with
      | Some cb => Some cb
      | None => first_match rest u
      end
  end.

(** [ConversationHandler.check_update]: entry points when the user is not in
    the conversation, else the handlers of the current state, then the
    fall-backs. *)
Definition conversation_check (ch : ConversationHandler) (st : option State)
    (u : Update) : option (Env → Event → Bot Ret) :=
  match st with
  | None => first_match (entry_points ch) u
  | Some s =>
      match first_match (states ch s) u with
      | Some cb => Some cb
      | None => first_match (fallbacks ch) u
      end
  end.

(** What [Application.process_update] hands the update to: the first
    registered handler that accepts it, with the conversation it belongs to
    ([None] for a handler registered on its own). *)
Fixpoint select (hs : list AppHandler) (cs : ConvStates) (u : Update)
    : option (option ConvId * (Env → Event → Bot Ret)) :=
  match hs with
  | [] => None
  | Plain h :: rest =>
      match h u with
      | Some cb => Some (None, cb)
      | None => select rest cs u
      end
  | Conversation i :: rest =>
      match conversation_check (conversation i) (conv_state i cs) u with
      | Some cb => Some (Some i, cb)
      | None => select rest cs u
      end
  end.

(** [ConversationHandler.handle_update]: the state after the callback
    returned [ret] ([None]: it raised, or it stands alone). *)
Definition next_conv (target : option ConvId) (ret : option Ret)
    (cs : ConvStates) : ConvStates :=
  match target, ret with
  | Some i, Some (Goto s) => set_conv_state i (Some s) cs
  | Some i, Some END => set_conv_state i None cs
  | _, _ => cs
  end.

Section Run.
Context (env : Env).

(** One update, seen from the user it comes from: the store, the session
    and the transport calls after it; [None] when no handler accepts it.
    An exception that leaves the callback goes to [error_handler]. *)
Definition handle (ev : Event) (d : Store) (sess : Session)
    : option (Store * Session * list Effect) :=
  match select application (conv sess) (update ev) with
  | None => None
  | Some (target, cb) =>
      let '(c, ret) :=
        match cb env ev (mkCtx d (data sess) []) with
        | (c, Ok ret) => (c, Some ret)
        | (c, Raise _) => (fst (error_handler c), None)
        end in
      Some (store c,
            mkSession (user_data c) (next_conv target ret (conv sess)),
            trace c)
  end.

Definition process_update (w : World) (ev : Event) : World :=
  let uid := user_id (effective_user ev) in
  match handle ev (db w) (session w uid) with
  | None => w
  | Some (d, sess, t) =>
      mkWorld d (<[uid := sess]> (sessions w))
        (history w ++ (pair uid <$> t))%list
  end.

Definition run (w : World) (evs : list Event) : World :=
  foldl process_update w evs.

End Run.

(** The keyboard a user has on screen: that of the last message the bot
    showed while handling one of their updates. *)
Definition shown_keyboard (uid : Z) (h : list (Z * Effect)) : Keyboard :=
  default []
    (last (omap (λ e, match e with
                      | (u, edit_message_text _ kb) | (u, reply_text _ kb) =>
                          if u =? uid then Some kb else None
                      | _ => None
                      end) h)).

(** The update Telegram sends when the user presses the button in row [row]
    of the keyboard on screen. *)
Definition press (row : nat) (u : User) (now : Z) (w : World) : option Event :=
  kb_row ← shown_keyboard (user_id u) (history w) !! row;
  data ← head kb_row;
  Some (mkEvent u now (callback_query data)).

(** ** The web routes of [src/routes/main_routes.py] *)

Module Routes.

(** What a route answers: the rows handed to the template, or
    [abort(404)]. *)
Inductive Response (A : Type) := ok (page : A) | not_found.
Arguments ok {A} page.
Arguments not_found {A}.

Definition is_approved (m : Mod.t) : bool :=
  String.eqb (Mod.status m) approved.

Definition category_name_asc (a b : Category.t) : bool :=
  String.leb (Category.name a) (Category.name b).

(** [/]: the ten latest approved mods, and the categories by name. *)
Definition index (s : Store) : list Mod.t * list Category.t :=
  (take 10 (Query.order_by Query.created_at_desc
              (Query.filter_by_status approved (mods s))),
   Query.order_by category_name_asc (categories s)).

(** [/mod/<int:mod_id>]: [filter_by(id=mod_id, status="approved")
    .first_or_404()] *)
Definition mod_detail (s : Store) (mod_id : Z) : Response Mod.t :=
  match List.find (λ m, (Mod.id m =? mod_id) && is_approved m) (mods s) with
  | Some m => ok m
  | None => not_found
  end.

(** [/category/<int:category_id>] *)
Definition category_mods (s : Store) (category_id : Z)
    : Response (Category.t * list Mod.t) :=
  match List.find (λ c, Category.id c =? category_id) (categories s) with
  | None => not_found
  | Some category =>
      ok (category,
          Query.order_by Query.name_asc
            (List.filter
               (λ m, bool_decide (Mod.category_id m = Some (Category.id category))
                     && is_approved m)
               (mods s)))
  end.

(** [/search?query=...] *)
Definition search (s : Store) (query : string) : list Mod.t :=
  if String.eqb query "" then []
  else Query.order_by Query.name_asc
         (List.filter
            (λ m, Text.like ("%" +:+ query +:+ "%") (Mod.name m)
                  && is_approved m)
            (mods s)).

Definition ping : string := "Pong! The website is running.".

End Routes.

(** ** Auxiliary definitions for the statements *)

(** What the decorator logs before the handler body runs. *)
Definition flask_warning (env : Env) : list Effect :=
  if FLASK_APP_AVAILABLE env then [] else [log_warning NoFlaskContext].

(** The updates of one user, followed on that user's session alone. *)
Fixpoint run_session (env : Env) (evs : list Event) (d : Store)
    (sess : Session) (t : list Effect) : Store * Session * list Effect :=
  match evs with
  | [] => (d, sess, t)
  | ev :: rest =>
      match handle env ev d sess with
      | None => run_session env rest d sess t
      | Some (d', s', t') => run_session env rest d' s' (t ++ t')
      end
  end.

(** The position of the review cursor, read as the handlers read it. *)
Definition review_index (ud : UserData) : Z :=
  default 0 (current_review_index ud).

Definition is_send_message (e : Effect) : bool :=
  match e with send_message _ _ _ => true | _ => false end.

Definition shows_main_menu (e : Effect) : bool :=
  match e with
  | edit_message_text (MainMenu _ _) _ | reply_text (MainMenu _ _) _ => true
  | _ => false
  end.

(** The callback data of the three owner-only entry points. *)
Definition owner_entry_points : list string :=
  ["add_mod_start"; "manage_categories_menu"; "review_suggested_mods_start"].

(** Concrete actors and environments for the examples. *)
Definition the_owner : User := mkUser OWNER_TELEGRAM_ID "Owner" None.
Definition alice : User := mkUser 5 "Alice" (Some "alice").
Definition env_ok : Env := mkEnv true (λ _, true).
Definition env_owner_offline : Env :=
  mkEnv true (λ chat, negb (chat =? OWNER_TELEGRAM_ID)).
Definition press_data (u : User) (now : Z) (data : string) : Event :=
  mkEvent u now (callback_query data).
Definition empty_ctx : Ctx := mkCtx (mkStore [] [] []) empty_user_data [].

(** What the user supplies in the add and suggest flows. *)
Record ModInput := mkModInput {
  in_name : string;
  in_description : string;
  in_link : string;
  in_file_unique_id : string;
  in_file_path : option string
}.

(** The six updates of a complete add or suggest flow: the start button,
    the three texts, the photo, and the button pressed on the summary.
    [clock k] and [ids k] are the time and the message id of update [k]. *)
Definition mod_flow (start last : string) (u : User) (clock ids : nat → Z)
    (i : ModInput) : list Event :=
  [mkEvent u (clock 0%nat) (callback_query start);
   mkEvent u (clock 1%nat) (text_message (ids 1%nat) (in_name i));
   mkEvent u (clock 2%nat) (text_message (ids 2%nat) (in_description i));
   mkEvent u (clock 3%nat) (text_message (ids 3%nat) (in_link i));
   mkEvent u (clock 4%nat)
     (photo_message (ids 4%nat) (in_file_unique_id i) (in_file_path i));
   mkEvent u (clock 5%nat) (callback_query last)].

(** The row a confirmed flow is to leave in the store. *)
Definition submitted (ms : list Mod.t) (clock ids : nat → Z) (i : ModInput)
    (uploader : Z) (status : string) : Mod.t :=
  Mod.mk (next_id (Mod.id <$> ms)) (in_name i) (in_description i) (in_link i)
    (Some (image_filename_of (ids 4%nat) (in_file_unique_id i) (in_file_path i)))
    None uploader status (clock 5%nat) (clock 5%nat) 0 0.

Definition test_mod : ModInput :=
  mkModInput "Test Mod" "A test" "http://x/y" "AQADfile" (Some "photos/file_7.jpg").

Definition empty_world : World := mkWorld (mkStore [] [] []) ∅ [].

(** A review in progress whose submission is gone from the store: the
    owner is looking at the card of mod 1, which has been deleted since. *)
Definition deleted_ctx : Ctx :=
  mkCtx (mkStore [] [] [])
    (mkUserData None None None (Some [1]) (Some 0) (Some 1)) [].

(** What section 7 asks of a handler that finds its submission missing: a
    not-found report, the end of the review pass, and the main menu. *)
Definition abandons_to_main_menu (before : Ctx) (out : Ctx * Res Ret) : Prop :=
  out.2 = Ok END ∧
  ∃ t, trace out.1 = (trace before ++ t)%list ∧
       (edit_message_text SuggestedModNotFound [] ∈ t ∨
        edit_message_text ModToUpdateNotFound [] ∈ t) ∧
       existsb shows_main_menu t = true.

(** The number of categories whose name is [n] up to the case of the ASCII
    letters. *)
Definition count_named (n : string) (cs : list Category.t) : nat :=
  length (List.filter
            (λ c, String.eqb (Text.lower (Category.name c)) (Text.lower n)) cs).

(** The outcome C5 asks of a colliding attempt: nothing is persisted and
    the answer is the already-exists text. *)
Definition reported_as_collision (name : string) (c : Ctx)
    (out : Ctx * Res Ret) : Prop :=
  store out.1 = store c ∧
  edit_message_text (CategoryExists name) [] ∈ trace out.1.

(** The category "éclair" in the store, and the owner about to confirm the
    same name in capitals. *)
Definition eclair_ctx : Ctx :=
  mkCtx (mkStore [] [Category.mk 1 "éclair"] [])
    (mkUserData None None (Some {["name" := "ÉCLAIR"]}) None None None) [].

(** One step of the review cursor: the snapshot is the same list and the
    position is where it was or one further. *)
Definition cursor_step (before after : UserData) : Prop :=
  pending_mods_list after = pending_mods_list before ∧
  (review_index after = review_index before ∨
   review_index after = review_index before + 1).

(** A callback under which the cursor makes at most one step. *)
Definition steps_cursor (cb : Bot Ret) : Prop :=
  ∀ c, cursor_step (user_data c) (user_data (cb c).1).

(** Three suggestions waiting for review, stored out of creation order:
    mod 3 was created at time 30, mod 1 at 10, mod 2 at 20. *)
Definition pending_mod (i t : Z) : Mod.t :=
  Mod.mk i ("mod " +:+ pretty i) "d" "http://x" (Some "img.jpg") None 5
    pending_approval t t 0 0.

Definition three_pending : World :=
  mkWorld (mkStore [pending_mod 3 30; pending_mod 1 10; pending_mod 2 20] [] [])
    ∅ [].

(** The owner after starting a review pass on [three_pending]. *)
Definition reviewing : World :=
  run env_ok three_pending
    [press_data the_owner 100 "review_suggested_mods_start"].

(** The user presses the button in row [row] of the keyboard on screen. *)
Definition press_row (env : Env) (row : nat) (u : User) (now : Z) (w : World)
    : World :=
  match press row u now w with
  | Some ev => process_update env w ev
  | None => w
  end.

Definition id_and_status (m : Mod.t) : Z * string := (Mod.id m, Mod.status m).

(** Predicates and fixtures of the later sections. *)

Fixpoint all_chars (P : ascii → bool) (s : string) : bool :=
  match s with
  | EmptyString => true
  | String c s' => P c && all_chars P s'
  end.

Definition decimal_char (c : ascii) : bool :=
  Text.is_digit c || Ascii.eqb c "-".

Definition decision_status (action : string) : string :=
  if String.eqb action "approve" then approved else rejected.

Definition decision_notice (action name : string) : Msg :=
  if String.eqb action "approve" then SuggestionApproved name
  else SuggestionRejected name.

Definition created_before (a b : Mod.t) : Prop :=
  Mod.created_at a ≤ Mod.created_at b.

(** The callback data that opens each conversation. *)
Definition entry_data (i : ConvId) : string :=
  match i with
  | add_mod_conv => "add_mod_start"
  | suggest_mod_conv => "suggest_new_mod_start"
  | review_mods_conv => "review_suggested_mods_start"
  | manage_categories_conv => "manage_categories_menu"
  end.

Definition has_owner_row (d : Store) : Prop :=
  is_Some (List.find (λ a, Admin.telegram_id a =? OWNER_TELEGRAM_ID) (admins d)).

(** The three statuses the bot ever writes. *)
Definition known_status (m : Mod.t) : Prop :=
  Mod.status m = approved ∨ Mod.status m = pending_approval ∨
  Mod.status m = rejected.

Definition newer_or_same (a b : Mod.t) : Prop :=
  Mod.created_at b ≤ Mod.created_at a.

(** The three conversations that only the owner can open. *)
Definition owner_flows_closed (cs : ConvStates) : Prop :=
  add_mod_state cs = None ∧ review_mods_state cs = None ∧
  manage_categories_state cs = None.

Definition only_owner_in_owner_flows (w : World) : Prop :=
  ∀ uid, uid ≠ OWNER_TELEGRAM_ID → owner_flows_closed (conv (session w uid)).

(** What an update of user [uid] may have done to the store: nothing, or
    one more row, pending and uploaded by [uid]. *)
Definition at_most_suggested (uid : Z) (d d' : Store) : Prop :=
  categories d' = categories d ∧ admins d' = admins d ∧
  (mods d' = mods d ∨
   ∃ m, mods d' = (mods d ++ [m])%list ∧ Mod.status m = pending_approval ∧
        Mod.uploader_telegram_id m = uid).

(** What the flow in state [st] waits for. *)
Definition awaited (st : State) (u : Update) : bool :=
  match st, u with
  | (ADD_MOD_NAME | ADD_MOD_DESCRIPTION | ADD_MOD_LINK
     | SUGGEST_MOD_NAME | SUGGEST_MOD_DESCRIPTION | SUGGEST_MOD_LINK
     | ADD_CAT_GET_NAME), text_message _ _ => true
  | (ADD_MOD_IMAGE | SUGGEST_MOD_IMAGE), photo_message _ _ _ => true
  | _, _ => false
  end.

Definition is_message (u : Update) : bool :=
  match u with
  | text_message _ _ | photo_message _ _ _ => true
  | _ => false
  end.

(** The four updates of a complete category creation: the menu button, the
    add button, the name, and the button pressed on the confirmation. *)
Definition category_flow (u : User) (clock : nat → Z) (message_id : Z)
    (name last : string) : list Event :=
  [press_data u (clock 0%nat) "manage_categories_menu";
   press_data u (clock 1%nat) "add_category_start";
   mkEvent u (clock 2%nat) (text_message message_id name);
   press_data u (clock 3%nat) last].

(** The start of the web application in [src/main.py]: after
    [db.create_all()], the owner's Admin row is created unless there is
    one. *)
Definition initial_setup (now : Z) (s : Store) : Store :=
  match List.find (λ a, Admin.telegram_id a =? 7839645457) (admins s) with
  | Some _ => s
  | None =>
      with_admins
        (λ l, (l ++ [Admin.mk 7839645457 (Some "SiteOwnerRender") "owner"
                       now])%list) s
  end.

(** [d'] has the rows of [d] and possibly more: the keys of the mods and
    the categories of [d] are a prefix of those of [d'], and the admins are
    the same when [d] has the owner's row. *)
Definition grows (d d' : Store) : Prop :=
  (∃ new, Mod.id <$> mods d' = (Mod.id <$> mods d) ++ new)%list ∧
  (∃ new, categories d' = categories d ++ new)%list ∧
  (has_owner_row d → admins d' = admins d).

(** ** Proof tools *)

Ltac bot_unfold :=
  unfold mbind, Bot_bind, mret, Bot_ret, emit, raise, try_except, get_store,
    modify_store, get_user_data, modify_user_data, subscript, or_continue,
    with_flask_context, store_field, no_data in *.

Ltac bot_simpl := repeat (bot_unfold; cbn); rewrite <- ?app_assoc; cbn.

Ltac map_simpl :=
  repeat (rewrite lookup_insert_eq || (rewrite lookup_insert_ne by done)).

Lemma session_insert d m u s h : session (mkWorld d (<[u:=s]> m) h) u = s.
Proof. unfold session; cbn. by rewrite lookup_insert_eq. Qed.

Lemma session_insert_ne d m u v s h :
  u ≠ v → session (mkWorld d (<[u:=s]> m) h) v = default new_session (m !! v).
Proof. intros Hne. unfold session; cbn. by rewrite lookup_insert_ne. Qed.

(** An update only touches the session of the user it comes from. *)
Lemma process_update_other env w ev u :
  user_id (effective_user ev) ≠ u →
  session (process_update env w ev) u = session w u.
Proof.
  intros Hne. unfold process_update.
  destruct (handle env ev (db w) _) as [[[d s] t]|]; [|done].
  by rewrite session_insert_ne.
Qed.

Lemma process_update_view env w ev :
  let uid := user_id (effective_user ev) in
  match handle env ev (db w) (session w uid) with
  | None => process_update env w ev = w
  | Some (d, s, t) =>
      db (process_update env w ev) = d ∧
      session (process_update env w ev) uid = s ∧
      history (process_update env w ev) = (history w ++ (pair uid <$> t))%list
  end.
Proof.
  cbn. unfold process_update.
  destruct (handle env ev (db w) _) as [[[d s] t]|]; [|done].
  by rewrite session_insert.
Qed.

(** Following one user's updates on the whole system or on that user's
    session gives the same store, session and transport calls. *)
Lemma run_one_user env uid evs :
  Forall (λ ev, user_id (effective_user ev) = uid) evs →
  ∀ w t0 d s t,
    run_session env evs (db w) (session w uid) t0 = (d, s, t) →
    db (run env w evs) = d ∧ session (run env w evs) uid = s ∧
    ∃ t', t = (t0 ++ t')%list ∧
          history (run env w evs) = (history w ++ (pair uid <$> t'))%list.
Proof.
  induction 1 as [|ev evs Hev _ IH]; intros w t0 d s t Hrun.
  - cbn in *. inversion Hrun; subst. repeat split; [].
    exists []. by rewrite !app_nil_r.
  - cbn [run_session] in Hrun. unfold run in *. cbn [foldl].
    pose proof (process_update_view env w ev) as Hview. cbn in Hview.
    rewrite Hev in Hview.
    destruct (handle env ev (db w) (session w uid)) as [[[d1 s1] t1]|].
    + destruct Hview as (Hd & Hs & Hh).
      rewrite <- Hd, <- Hs in Hrun.
      destruct (IH _ _ _ _ _ Hrun) as (Hd' & Hs' & t' & -> & Hh').
      repeat split; [done..|].
      exists (t1 ++ t')%list. split; [by rewrite app_assoc|].
      rewrite Hh', Hh, fmap_app. by rewrite app_assoc.
    + rewrite Hview. by apply IH.
Qed.

(** No conversation but the one a literal belongs to reacts to it. *)
Ltac no_reaction ch data :=
  assert (∀ st, conversation_check ch st (callback_query data) = None)
    by (intros [[]|]; reflexivity).

Ltac rewrite_no_reaction :=
  repeat match goal with
         | H : ∀ st, conversation_check _ st _ = None |- _ => rewrite !H; clear H
         end.

(** Expose which conversation a callback literal can reach. *)
Ltac route data :=
  try no_reaction add_mod_conv_handler data;
  try no_reaction suggest_mod_conv_handler data;
  try no_reaction review_mods_conv_handler data;
  try no_reaction manage_categories_conv_handler data;
  unfold application, select;
  cbn [conv conv_state conversation CommandHandler CallbackQueryHandler
       add_mod_state suggest_mod_state review_mods_state
       manage_categories_state];
  rewrite_no_reaction.

(** * Access control *)

Lemma non_owner_entry_handle env ev d sess data :
  is_owner ev = false →
  update ev = callback_query data →
  data ∈ owner_entry_points →
  match handle env ev d sess with
  | None => True
  | Some (d', s', t') =>
      d' = d ∧ s' = sess ∧
      t' = (flask_warning env ++ [answer; edit_message_text OwnerOnly []])%list
  end.
Proof.
  intros Hno Hupd Hin. unfold handle. rewrite Hupd.
  destruct sess as [ud [a s r m]].
  unfold owner_entry_points in Hin.
  repeat (apply elem_of_cons in Hin as [->|Hin]);
    [| | |by apply elem_of_nil in Hin].
  - route "add_mod_start".
    destruct a as [[]|]; cbn; try exact I.
    unfold add_mod_start_callback, flask_warning.
    bot_simpl; destruct (FLASK_APP_AVAILABLE env); unfold is_owner in *;
      rewrite Hno; bot_simpl; done.
  - route "manage_categories_menu".
    destruct m as [[]|]; cbn; try exact I.
    unfold manage_categories_menu_callback, flask_warning.
    bot_simpl; destruct (FLASK_APP_AVAILABLE env); unfold is_owner in *;
      rewrite Hno; bot_simpl; done.
  - route "review_suggested_mods_start".
    destruct r as [[]|]; cbn; try exact I.
    unfold review_suggested_mods_start_callback, flask_warning.
    bot_simpl; destruct (FLASK_APP_AVAILABLE env); unfold is_owner in *;
      rewrite Hno; bot_simpl; done.
Qed.

(** C6. A user other than the owner who invokes one of the owner-only entry
    points (add-mod start, manage categories, review start) gets the
    owner-only denial and [END], whatever the store and the session hold:
    the store and the session data are returned as they were.  Routed
    through the application, whatever conversations anyone is in, such an
    update leaves the record store untouched. *)
Theorem non_owner_entry_points_denied (env : Env) (ev : Event) (c : Ctx) :
  user_id (effective_user ev) ≠ OWNER_TELEGRAM_ID →
  let denied :=
    (mkCtx (store c) (user_data c)
       (trace c ++ flask_warning env
          ++ [answer; edit_message_text OwnerOnly []])%list,
     Ok END) in
  add_mod_start_callback env ev c = denied ∧
  manage_categories_menu_callback env ev c = denied ∧
  review_suggested_mods_start_callback env ev c = denied ∧
  ∀ w data, update ev = callback_query data → data ∈ owner_entry_points →
            db (process_update env w ev) = db w.
Proof.
  intros Hne denied.
  assert (Hno : is_owner ev = false) by (unfold is_owner; lia).
  subst denied.
  unfold add_mod_start_callback, manage_categories_menu_callback,
    review_suggested_mods_start_callback, flask_warning.
  repeat split.
  1-3: bot_simpl; destruct (FLASK_APP_AVAILABLE env); rewrite Hno; bot_simpl;
    reflexivity.
  intros w data Hupd Hin.
  pose proof (process_update_view env w ev) as Hview. cbn in Hview.
  pose proof (non_owner_entry_handle env ev (db w)
                (session w (user_id (effective_user ev))) data Hno Hupd Hin)
    as Hh.
  destruct (handle env ev (db w) _) as [[[d s] t]|].
  - destruct Hview as (-> & _). by destruct Hh as (-> & _).
  - by rewrite Hview.
Qed.

Lemma non_owner_entry_points_denied_witness :
  user_id alice ≠ OWNER_TELEGRAM_ID ∧
  add_mod_start_callback env_ok (press_data alice 1 "add_mod_start") empty_ctx
  = (mkCtx (mkStore [] [] []) empty_user_data
       [answer; edit_message_text OwnerOnly []], Ok END).
Proof.
  split; [done|].
  apply (non_owner_entry_points_denied env_ok
           (press_data alice 1 "add_mod_start") empty_ctx).
  done.
Defined.

(** * The add and suggest flows *)

Ltac flow_simpl HF :=
  repeat (progress (cbn;
    unfold get_owner_mod_name, get_owner_mod_description, get_owner_mod_link,
      get_owner_mod_image, get_user_mod_name, get_user_mod_description,
      get_user_mod_link, get_user_mod_image, _get_mod_name,
      _get_mod_description, _get_mod_link, _get_mod_image,
      add_mod_start_callback, suggest_new_mod_start_callback,
      confirm_add_mod_callback, confirm_suggest_mod_callback,
      go_to_main_menu_owner, bot_send_message;
    rewrite ?HF; map_simpl; bot_simpl)).

Lemma mod_flow_one_user start last u clock ids i :
  Forall (λ ev, user_id (effective_user ev) = user_id u)
    (mod_flow start last u clock ids i).
Proof. unfold mod_flow. repeat constructor. Qed.

(** The owner's flow on the owner's session, confirmed. *)
Lemma owner_add_flow_session env d ud s r m fn un clock ids i :
  FLASK_APP_AVAILABLE env = true →
  let u := mkUser OWNER_TELEGRAM_ID fn un in
  ∃ t,
    run_session env
      (mod_flow "add_mod_start" "confirm_add_mod_yes" u clock ids i) d
      (mkSession ud (mkConvStates None s r m)) [] =
    (with_mods (λ ms, ms ++ [submitted ms clock ids i OWNER_TELEGRAM_ID approved])%list d,
     mkSession (set_buffer key_current_mod None ud) (mkConvStates None s r m),
     t) ∧
    download_to_drive
      (image_filename_of (ids 4%nat) (in_file_unique_id i) (in_file_path i)) ∈ t.
Proof.
  intros HF u. eexists. split.
  - unfold mod_flow, run_session, handle. flow_simpl HF. reflexivity.
  - apply list_elem_of_In; cbn; tauto.
Qed.

Lemma next_id_fresh (ids : list Z) : Forall (λ k, k ≠ next_id ids) ids.
Proof.
  assert (H : Forall (λ k, k ≤ foldr Z.max 0 ids) ids).
  { induction ids as [|k ids IH]; constructor; cbn; [lia|].
    eapply Forall_impl; [exact IH|]. cbn. intros; lia. }
  eapply Forall_impl; [exact H|]. unfold next_id. cbn. intros; lia.
Qed.

(** C3. The owner's add-mod flow (start, name, description, link, photo,
    confirm) adds exactly one row to the mods table: the rows before it are
    kept, the new row has a key no earlier row has, status approved, the
    owner as uploader, the three texts as typed and the file name under
    which the photo was saved; the buffer is gone and the conversation has
    ended. *)
Theorem owner_add_flow_confirm (env : Env) (w : World) (fn : string)
    (un : option string) (clock ids : nat → Z) (i : ModInput) :
  FLASK_APP_AVAILABLE env = true →
  add_mod_state (conv (session w OWNER_TELEGRAM_ID)) = None →
  let u := mkUser OWNER_TELEGRAM_ID fn un in
  let w' := run env w
              (mod_flow "add_mod_start" "confirm_add_mod_yes" u clock ids i) in
  let new := submitted (mods (db w)) clock ids i OWNER_TELEGRAM_ID approved in
  mods (db w') = (mods (db w) ++ [new])%list ∧
  Forall (λ m, Mod.id m ≠ Mod.id new) (mods (db w)) ∧
  Mod.status new = approved ∧
  Mod.uploader_telegram_id new = OWNER_TELEGRAM_ID ∧
  (OWNER_TELEGRAM_ID, download_to_drive (default "" (Mod.image_filename new)))
    ∈ history w' ∧
  current_mod (data (session w' OWNER_TELEGRAM_ID)) = None ∧
  add_mod_state (conv (session w' OWNER_TELEGRAM_ID)) = None.
Proof.
  intros HF Hidle u w' new.
  destruct (session w OWNER_TELEGRAM_ID) as [ud [a s r m]] eqn:Hsess.
  cbn in Hidle. subst a.
  destruct (owner_add_flow_session env (db w) ud s r m fn un clock ids i HF)
    as (t & Hrun & Hsaved).
  rewrite <- Hsess in Hrun.
  destruct (run_one_user env OWNER_TELEGRAM_ID _
              (mod_flow_one_user _ _ u clock ids i) w [] _ _ _ Hrun)
    as (Hdb & Hs & t' & -> & Hh).
  fold w' in Hdb, Hs, Hh. rewrite Hdb, Hs, Hh.
  repeat split; try done.
  - apply Forall_forall. intros x Hx.
    pose proof (next_id_fresh (Mod.id <$> mods (db w))) as Hf.
    rewrite Forall_forall in Hf. apply Hf. by apply list_elem_of_fmap_2.
  - apply elem_of_app. right. by apply (list_elem_of_fmap_2 (pair _)).
Qed.

Lemma owner_add_flow_confirm_witness :
  mods (db (run env_ok empty_world
              (mod_flow "add_mod_start" "confirm_add_mod_yes" the_owner
                 Z.of_nat Z.of_nat test_mod))) =
  [Mod.mk 1 "Test Mod" "A test" "http://x/y" (Some "mod_4_AQADfile.jpg") None
     OWNER_TELEGRAM_ID "approved" 5 5 0 0].
Proof.
  apply (owner_add_flow_confirm env_ok empty_world "Owner" None
           Z.of_nat Z.of_nat test_mod); reflexivity.
Defined.

(** C4. The same flow ended with the cancel button: the store is as it was
    before the flow, the buffer [current_mod] is gone from the owner's
    session and the conversation has ended.  The photo received on the way
    stays on disk. *)
Theorem owner_add_flow_cancel (env : Env) (w : World) (fn : string)
    (un : option string) (clock ids : nat → Z) (i : ModInput) :
  add_mod_state (conv (session w OWNER_TELEGRAM_ID)) = None →
  let u := mkUser OWNER_TELEGRAM_ID fn un in
  let w' := run env w
              (mod_flow "add_mod_start" "confirm_add_mod_cancel" u clock ids i) in
  db w' = db w ∧
  current_mod (data (session w' OWNER_TELEGRAM_ID)) = None ∧
  add_mod_state (conv (session w' OWNER_TELEGRAM_ID)) = None ∧
  (OWNER_TELEGRAM_ID, edit_message_text AddModCancelled []) ∈ history w'.
Proof.
  intros Hidle u w'.
  destruct (session w OWNER_TELEGRAM_ID) as [ud [a s r m]] eqn:Hsess.
  cbn in Hidle. subst a.
  destruct (run_session env
              (mod_flow "add_mod_start" "confirm_add_mod_cancel" u clock ids i)
              (db w) (session w OWNER_TELEGRAM_ID) []) as [[d s'] t] eqn:Hrun.
  destruct (run_one_user env OWNER_TELEGRAM_ID _
              (mod_flow_one_user _ _ u clock ids i) w [] _ _ _ Hrun)
    as (Hdb & Hs & t' & -> & Hh).
  fold w' in Hdb, Hs, Hh. rewrite Hdb, Hs, Hh.
  revert Hrun. rewrite Hsess. unfold mod_flow, run_session, handle.
  destruct (FLASK_APP_AVAILABLE env) eqn:HF; flow_simpl HF;
    intros [= <- <- <-]; repeat split; try done;
    apply elem_of_app; right; apply (list_elem_of_fmap_2 (pair _));
    apply list_elem_of_In; cbn; tauto.
Qed.

Lemma owner_add_flow_cancel_witness :
  db (run env_ok empty_world
        (mod_flow "add_mod_start" "confirm_add_mod_cancel" the_owner
           Z.of_nat Z.of_nat test_mod)) = db empty_world.
Proof.
  apply (owner_add_flow_cancel env_ok empty_world "Owner" None
           Z.of_nat Z.of_nat test_mod); reflexivity.
Defined.

(** C2. A user's suggest flow (start, name, description, link, photo,
    confirm) adds one row with status pending_approval and the invoking
    user as uploader, and among the transport calls of the flow exactly one
    is a message to another chat: the notice of the new suggestion,
    addressed to the owner. *)
Theorem suggest_flow_confirm (env : Env) (w : World) (u : User)
    (clock ids : nat → Z) (i : ModInput) :
  FLASK_APP_AVAILABLE env = true →
  add_mod_state (conv (session w (user_id u))) = None →
  suggest_mod_state (conv (session w (user_id u))) = None →
  let w' := run env w
              (mod_flow "suggest_new_mod_start" "confirm_suggest_mod_yes" u
                 clock ids i) in
  let new := submitted (mods (db w)) clock ids i (user_id u) pending_approval in
  mods (db w') = (mods (db w) ++ [new])%list ∧
  Mod.status new = pending_approval ∧
  Mod.uploader_telegram_id new = user_id u ∧
  ∃ t, history w' = (history w ++ (pair (user_id u) <$> t))%list ∧
       List.filter is_send_message t =
         [send_message OWNER_TELEGRAM_ID
            (NewSuggestion (first_name u) (user_id u) (in_name i)
               (in_description i) (in_link i)
               (default "" (Mod.image_filename new)))
            (reachable env OWNER_TELEGRAM_ID)].
Proof.
  intros HF Hidle1 Hidle2 w' new.
  destruct (session w (user_id u)) as [ud [a s r m]] eqn:Hsess.
  cbn in Hidle1, Hidle2. subst a s.
  destruct (run_session env
              (mod_flow "suggest_new_mod_start" "confirm_suggest_mod_yes" u
                 clock ids i)
              (db w) (session w (user_id u)) []) as [[d s'] t] eqn:Hrun.
  destruct (run_one_user env (user_id u) _
              (mod_flow_one_user _ _ u clock ids i) w [] _ _ _ Hrun)
    as (Hdb & Hs & t' & -> & Hh).
  fold w' in Hdb, Hs, Hh. rewrite Hdb, Hh.
  revert Hrun. rewrite Hsess. unfold mod_flow, run_session, handle.
  destruct (reachable env OWNER_TELEGRAM_ID) eqn:HR;
    flow_simpl HF; rewrite ?HR; flow_simpl HF;
    intros [= <- <- <-]; repeat split; eexists; split; reflexivity.
Qed.

Lemma suggest_flow_confirm_witness :
  mods (db (run env_ok empty_world
              (mod_flow "suggest_new_mod_start" "confirm_suggest_mod_yes" alice
                 Z.of_nat Z.of_nat test_mod))) =
  [Mod.mk 1 "Test Mod" "A test" "http://x/y" (Some "mod_4_AQADfile.jpg") None
     5 "pending_approval" 5 5 0 0].
Proof.
  apply (suggest_flow_confirm env_ok empty_world alice
           Z.of_nat Z.of_nat test_mod); reflexivity.
Defined.

(** * Notifications to third parties *)

(** The notice to the suggester after approve or reject never raises and
    touches neither the store nor the session. *)
Lemma notify_suggester_swallows env uploader m c :
  ∃ t, notify_suggester env uploader m c =
         (mkCtx (store c) (user_data c) (trace c ++ t)%list, Ok tt) ∧
       (reachable env uploader = false → uploader ≠ OWNER_TELEGRAM_ID →
        t = [send_message uploader m false;
             log_warning (CouldNotNotifySuggester uploader)]).
Proof.
  unfold notify_suggester, bot_send_message.
  destruct (uploader =? OWNER_TELEGRAM_ID) eqn:Ho; cbn.
  - exists []. rewrite app_nil_r. destruct c. split; [done|]. lia.
  - destruct (reachable env uploader); bot_simpl; eexists; split; try done.
Qed.

(** The confirm step of the suggest flow when the owner cannot be written
    to: the row is committed, the exception of [send_message] lands in the
    [except] of the database block, and the user's message is edited to the
    save-failed text. *)
Lemma confirm_suggest_owner_unreachable env ev c buf name description link image :
  FLASK_APP_AVAILABLE env = true →
  reachable env OWNER_TELEGRAM_ID = false →
  suggested_mod (user_data c) = Some buf →
  buf !! "name" = Some name → buf !! "description" = Some description →
  buf !! "download_link" = Some link → buf !! "image_filename" = Some image →
  confirm_suggest_mod_callback env ev "confirm_suggest_mod_yes" c =
    (mkCtx
       (Query.add_mod (utcnow ev) name description link image
          (user_id (effective_user ev)) pending_approval (store c))
       (set_buffer key_suggested_mod None (user_data c))
       (trace c ++
        [answer; edit_message_text (SuggestionReceived name) [];
         send_message OWNER_TELEGRAM_ID
           (NewSuggestion (first_name (effective_user ev))
              (user_id (effective_user ev)) name description link image)
           false;
         log_error ErrorSavingSuggestion;
         edit_message_text SuggestionSaveFailed []])%list,
     Ok END).
Proof.
  intros HF HR Hb H1 H2 H3 H4.
  unfold confirm_suggest_mod_callback, bot_send_message.
  bot_simpl. rewrite HF, Hb. bot_simpl. rewrite H1, H2, H3, H4. bot_simpl.
  rewrite HR. bot_simpl. reflexivity.
Qed.

(** C7. With the owner's chat unreachable, a user's complete suggest flow
    commits the pending row, and then the failed notice is logged as a
    database error and the user's confirmation is replaced by the
    save-failed text: the last four transport calls of the flow. *)
Theorem suggestion_notice_failure_reaches_user :
  let w' := run env_owner_offline empty_world
              (mod_flow "suggest_new_mod_start" "confirm_suggest_mod_yes" alice
                 Z.of_nat Z.of_nat test_mod) in
  Mod.status <$> mods (db w') = [pending_approval] ∧
  drop 8 (history w') =
    [(5, edit_message_text (SuggestionReceived "Test Mod") []);
     (5, send_message OWNER_TELEGRAM_ID
           (NewSuggestion "Alice" 5 "Test Mod" "A test" "http://x/y"
              "mod_4_AQADfile.jpg") false);
     (5, log_error ErrorSavingSuggestion);
     (5, edit_message_text SuggestionSaveFailed [])].
Proof. vm_compute. split; reflexivity. Qed.

(** * A submission deleted during the review *)

Lemma display_missing_mod env ev c mod_id :
  FLASK_APP_AVAILABLE env = true →
  0 ≤ review_index (user_data c) →
  default [] (pending_mods_list (user_data c))
    !! Z.to_nat (review_index (user_data c)) = Some mod_id →
  Query.get (mods (store c)) mod_id = None →
  display_pending_mod_for_review env ev c =
    (mkCtx (store c) (user_data c)
       (trace c ++
        [edit_message_text SuggestedModNotFound [];
         edit_message_text
           (MainMenu (first_name (effective_user ev))
              (Z.of_nat (length (Query.filter_by_status pending_approval
                                   (mods (store c))))))
           main_menu_keyboard])%list,
     Ok END).
Proof.
  intros HF Hpos Hlook Hget.
  unfold review_index in *.
  pose proof (lookup_lt_Some _ _ _ Hlook) as Hlt.
  assert (E1 : (Z.of_nat (length (default [] (pending_mods_list (user_data c))))
                <=? default 0 (current_review_index (user_data c))) = false)
    by lia.
  assert (E2 : (0 <=? default 0 (current_review_index (user_data c))) = true)
    by lia.
  assert (E3 : (default 0 (current_review_index (user_data c))
                <? Z.of_nat (length (default [] (pending_mods_list (user_data c)))))
               = true) by lia.
  unfold Query.get in Hget.
  unfold display_pending_mod_for_review, go_to_main_menu_owner, list_index.
  bot_simpl. rewrite HF, E1. bot_simpl. rewrite !E2, E3. cbn. rewrite Hlook.
  bot_simpl. unfold Query.get. rewrite Hget. bot_simpl. by destruct c.
Qed.

Lemma action_missing_mod env ev c action_data action_type mod_id_str mod_id :
  FLASK_APP_AVAILABLE env = true →
  Text.last_two (Text.split "_" action_data) = [action_type; mod_id_str] →
  Text.int mod_id_str = Some mod_id →
  Query.get (mods (store c)) mod_id = None →
  review_action_callback env ev action_data c =
    (mkCtx (store c) (user_data c)
       (trace c ++ [answer; edit_message_text ModToUpdateNotFound []])%list,
     Ok END).
Proof.
  intros HF Hsplit Hint Hget.
  unfold review_action_callback. bot_simpl. rewrite HF. cbn.
  destruct (String.eqb_spec action_data "review_action_skip") as [->|_];
    [by vm_compute in Hsplit; simplify_eq|].
  destruct (String.eqb_spec action_data "main_menu_from_review") as [->|_];
    [by vm_compute in Hsplit; simplify_eq|].
  rewrite Hsplit, Hint. unfold Query.get in Hget. bot_simpl.
  unfold Query.get. rewrite Hget. bot_simpl. reflexivity.
Qed.

(** C8 as stated fails on the action step: approving a submission that has
    been deleted reports not-found and ends the pass, but no main menu is
    shown. *)
Lemma review_action_on_deleted_mod_shows_no_menu :
  ¬ abandons_to_main_menu deleted_ctx
      (review_action_callback env_ok
         (press_data the_owner 9 "review_action_approve_1")
         "review_action_approve_1" deleted_ctx).
Proof.
  rewrite (action_missing_mod env_ok _ deleted_ctx _ "approve" "1" 1)
    by reflexivity.
  intros (_ & t & Ht & _ & Hmenu). cbn in Ht. subst t. discriminate Hmenu.
Qed.

(** C8, amended. When the display step finds that the submission under the
    cursor is gone from the store, it reports not-found, shows the main
    menu and ends the pass; when an approve or reject action finds its
    submission gone, it reports not-found and ends the pass, and shows no
    menu.  Neither changes the store or the session data. *)
Theorem deleted_submission_ends_review (env : Env) (ev : Event) (c : Ctx)
    (mod_id : Z) :
  FLASK_APP_AVAILABLE env = true →
  Query.get (mods (store c)) mod_id = None →
  (0 ≤ review_index (user_data c) →
   default [] (pending_mods_list (user_data c))
     !! Z.to_nat (review_index (user_data c)) = Some mod_id →
   abandons_to_main_menu c (display_pending_mod_for_review env ev c) ∧
   store (display_pending_mod_for_review env ev c).1 = store c ∧
   user_data (display_pending_mod_for_review env ev c).1 = user_data c) ∧
  (∀ action_data action_type mod_id_str,
     Text.last_two (Text.split "_" action_data) = [action_type; mod_id_str] →
     Text.int mod_id_str = Some mod_id →
     review_action_callback env ev action_data c =
       (mkCtx (store c) (user_data c)
          (trace c ++ [answer; edit_message_text ModToUpdateNotFound []])%list,
        Ok END)).
Proof.
  intros HF Hget. split.
  - intros Hpos Hlook.
    rewrite (display_missing_mod env ev c mod_id HF Hpos Hlook Hget). cbn.
    repeat split. eexists. split; [reflexivity|]. split; [|reflexivity].
    left. apply list_elem_of_In. cbn. tauto.
  - intros action_data action_type mod_id_str Hsplit Hint.
    by apply (action_missing_mod env ev c action_data action_type mod_id_str mod_id).
Qed.

Lemma deleted_submission_ends_review_witness :
  review_action_callback env_ok
    (press_data the_owner 9 "review_action_reject_1")
    "review_action_reject_1" deleted_ctx =
  (mkCtx (mkStore [] [] []) (user_data deleted_ctx)
     [answer; edit_message_text ModToUpdateNotFound []], Ok END).
Proof.
  apply (deleted_submission_ends_review env_ok
           (press_data the_owner 9 "review_action_reject_1") deleted_ctx 1
           eq_refl eq_refl) with (action_type := "reject") (mod_id_str := "1");
    reflexivity.
Defined.

(** * Category creation *)

(** The wildcards are not letters: only themselves fold to them. *)
Lemma lower_ascii_wildcard (c d : ascii) :
  c = "%"%char ∨ c = "_"%char →
  Text.lower_ascii c = Text.lower_ascii d → d = c.
Proof.
  intros [-> | ->]; destruct d as [[] [] [] [] [] [] [] []]; vm_compute;
    congruence.
Qed.

(** A pattern matches every text that equals it up to the case of the ASCII
    letters, also when it contains the wildcards [%] and [_]. *)
Lemma like_same_up_to_case p s :
  Text.lower p = Text.lower s → Text.like p s = true.
Proof.
  revert s. induction p as [|c p IH]; intros [|d s] Heq; cbn in Heq;
    try discriminate; [reflexivity|].
  injection Heq as Hc Hps. cbn [Text.like].
  destruct (Ascii.eqb_spec c "%") as [->|_].
  - apply orb_true_iff. right. pose proof (IH s Hps) as H.
    destruct s; cbn in *; rewrite H; reflexivity.
  - destruct (Ascii.eqb_spec c "_") as [->|_].
    + rewrite (lower_ascii_wildcard "_" d) by auto. by apply IH.
    + rewrite (IH s Hps), Hc, Ascii.eqb_refl. done.
Qed.

(** [_] counts characters, not bytes, and a letter outside ASCII matches
    only itself. *)
Example like_on_utf8 :
  Text.like "___" "مود" = true ∧ Text.like "______" "مود" = false ∧
  Text.like "%__" "€" = false ∧ Text.like "%و_" "مود" = true ∧
  Text.like "ÉCLAIR" "éclair" = false ∧ Text.like "éCLAIR" "éclair" = true.
Proof. vm_compute. repeat split. Qed.

Lemma find_some_of_member {A} (f : A → bool) (l : list A) (x : A) :
  x ∈ l → f x = true → is_Some (List.find f l).
Proof.
  intros Hin Hf.
  induction Hin as [x l|x y l Hin IH]; cbn.
  - rewrite Hf. by exists x.
  - destruct (f y); [by exists y|by apply IH].
Qed.

(** C5 as stated fails for letters outside ASCII, which the store does not
    fold: with "éclair" in the store, confirming "ÉCLAIR", the same name
    up to letter case, is not reported as a collision. *)
Lemma category_case_variant_beyond_ascii_is_added :
  ¬ reported_as_collision "ÉCLAIR" eclair_ctx
      (confirm_add_category_callback env_ok
         (press_data the_owner 3 "confirm_add_category_yes")
         "confirm_add_category_yes" eclair_ctx).
Proof. intros [Hst _]. vm_compute in Hst. discriminate. Qed.

(** It is persisted as a second category. *)
Example eclair_in_both_cases :
  categories
    (store (confirm_add_category_callback env_ok
              (press_data the_owner 3 "confirm_add_category_yes")
              "confirm_add_category_yes" eclair_ctx).1)
  = [Category.mk 1 "éclair"; Category.mk 2 "ÉCLAIR"].
Proof. reflexivity. Qed.

(** C5, amended. When a category named [n] exists, confirming the creation
    of any name equal to [n] up to the case of the ASCII letters persists
    nothing: the store is unchanged (so as many categories carry that name
    as before, one if there was one), the answer is the already-exists
    text, the buffer is dropped and the conversation is back at the
    category menu. *)
Theorem category_collision_reported (env : Env) (ev : Event) (c : Ctx)
    (buf : gmap string string) (cat : Category.t) (cat_name : string) :
  FLASK_APP_AVAILABLE env = true →
  new_category (user_data c) = Some buf →
  buf !! "name" = Some cat_name →
  cat ∈ categories (store c) →
  Text.lower cat_name = Text.lower (Category.name cat) →
  let out := confirm_add_category_callback env ev "confirm_add_category_yes" c in
  out.2 = Ok (Goto CAT_MANAGE_MENU) ∧
  store out.1 = store c ∧
  count_named (Category.name cat) (categories (store out.1)) =
    count_named (Category.name cat) (categories (store c)) ∧
  new_category (user_data out.1) = None ∧
  ∃ t, trace out.1 =
         (trace c ++ [answer; edit_message_text (CategoryExists cat_name) []]
            ++ t)%list ∧
       Forall (λ e, ∀ n, e ≠ edit_message_text (CategoryAdded n) []) t.
Proof.
  intros HF Hbuf Hname Hin Hcase out.
  destruct (find_some_of_member (λ k, Text.like cat_name (Category.name k))
              _ cat Hin (like_same_up_to_case _ _ Hcase)) as [hit Hhit].
  subst out.
  unfold confirm_add_category_callback, manage_categories_menu_callback,
    Query.category_ilike_first.
  bot_simpl. rewrite HF, Hbuf. bot_simpl. rewrite Hname. bot_simpl.
  rewrite Hhit. bot_simpl.
  destruct (is_owner ev); bot_simpl; repeat split;
    eexists; (split; [reflexivity|]); repeat constructor; discriminate.
Qed.

Lemma category_collision_reported_witness :
  (confirm_add_category_callback env_ok
     (press_data the_owner 3 "confirm_add_category_yes")
     "confirm_add_category_yes"
     (mkCtx (mkStore [] [Category.mk 1 "Adventure"] [])
        (mkUserData None None (Some {["name" := "ADVENTURE"]}) None None None)
        [])).2 = Ok (Goto CAT_MANAGE_MENU).
Proof.
  apply (category_collision_reported env_ok
           (press_data the_owner 3 "confirm_add_category_yes")
           (mkCtx (mkStore [] [Category.mk 1 "Adventure"] [])
              (mkUserData None None (Some {["name" := "ADVENTURE"]}) None None
                 None) [])
           {["name" := "ADVENTURE"]} (Category.mk 1 "Adventure") "ADVENTURE");
    try reflexivity.
  apply list_elem_of_In. cbn. tauto.
Defined.

(** * The review cursor *)

Ltac unfold_handlers :=
  unfold start_command, get_owner_mod_name, get_owner_mod_description,
    get_owner_mod_link, get_owner_mod_image, get_user_mod_name,
    get_user_mod_description, get_user_mod_link, get_user_mod_image,
    _get_mod_name, _get_mod_description, _get_mod_link, _get_mod_image,
    add_mod_start_callback, suggest_new_mod_start_callback,
    confirm_add_mod_callback, confirm_suggest_mod_callback,
    review_action_callback, display_pending_mod_for_review,
    confirm_add_category_callback, manage_categories_menu_callback,
    list_all_categories_callback, add_category_start_callback,
    get_new_category_name, view_stats_callback, unknown_command,
    main_menu_fallback, go_to_main_menu_owner, list_index,
    advance_review_index, notify_suggester, bot_send_message in *.

(** Run a handler on a symbolic context through all of its branches. *)
Ltac crush_handler :=
  intros ?c; unfold cursor_step, review_index;
  bot_simpl;
  repeat (case_match; simplify_eq; bot_simpl);
  cbn; (split; [reflexivity | lia]).

Lemma conversation_steps env ev i st u cb :
  (i = review_mods_conv → st = Some REVIEW_MOD_ACTION) →
  conversation_check (conversation i) st u = Some cb →
  steps_cursor (cb env ev).
Proof.
  intros Hi Hc.
  destruct i; (try specialize (Hi eq_refl)); simplify_eq;
    try destruct st as [[]|]; destruct u; cbn in Hc;
    unfold Text.match_prefix in Hc;
    repeat case_match; simplify_eq;
    unfold steps_cursor; unfold_handlers; crush_handler.
Qed.

Lemma plain_steps env ev u cb :
  CommandHandler "start" start_command u = Some cb ∨
  CallbackQueryHandler (no_data view_stats_callback)
    (Pattern.one_of ["view_stats"]) u = Some cb ∨
  AnyCommandHandler unknown_command u = Some cb →
  steps_cursor (cb env ev).
Proof.
  intros Hc. destruct u; cbn in Hc; destruct Hc as [Hc|[Hc|Hc]];
    repeat case_match; simplify_eq;
    unfold steps_cursor; unfold_handlers; crush_handler.
Qed.

(** Whatever the application hands an update to while its sender is in a
    review pass, the cursor makes at most one step under it. *)
Lemma select_steps env ev cs u target cb :
  review_mods_state cs = Some REVIEW_MOD_ACTION →
  select application cs u = Some (target, cb) →
  steps_cursor (cb env ev).
Proof.
  intros Hrev Hsel. unfold application in Hsel. cbn [select] in Hsel.
  repeat match type of Hsel with
         | match conversation_check (conversation ?i) ?st u with _ => _ end = _ =>
             let E := fresh "E" in
             destruct (conversation_check (conversation i) st u) eqn:E;
             [injection Hsel as <- <-;
              apply (conversation_steps env ev i st u); [|exact E];
              intros ?; first [discriminate | exact Hrev]|]
         | match ?h u with _ => _ end = _ =>
             let E := fresh "E" in
             destruct (h u) eqn:E;
             [injection Hsel as <- <-; apply (plain_steps env ev u);
              first [left; exact E | right; left; exact E
                    | right; right; exact E]|]
         end.
  discriminate.
Qed.

Lemma handle_steps env ev d sess d' sess' t :
  review_mods_state (conv sess) = Some REVIEW_MOD_ACTION →
  handle env ev d sess = Some (d', sess', t) →
  cursor_step (data sess) (data sess').
Proof.
  intros Hrev Hh. unfold handle in Hh.
  destruct (select application (conv sess) (update ev)) as [[target cb]|] eqn:Hsel;
    [|discriminate].
  pose proof (select_steps env ev _ _ _ _ Hrev Hsel
                (mkCtx d (data sess) [])) as Hstep.
  destruct (cb env ev (mkCtx d (data sess) [])) as [c [ret|e]];
    cbn in Hh, Hstep; by simplify_eq.
Qed.

Lemma skip_advances env ev c :
  FLASK_APP_AVAILABLE env = true →
  let after := user_data (review_action_callback env ev "review_action_skip" c).1 in
  pending_mods_list after = pending_mods_list (user_data c) ∧
  review_index after = review_index (user_data c) + 1.
Proof.
  intros HF. cbn zeta. unfold_handlers. unfold review_index. bot_simpl.
  rewrite HF. bot_simpl.
  repeat (case_match; simplify_eq; bot_simpl); cbn; done.
Qed.

Lemma decision_advances env ev c action_data action_type mod_id_str mod_id :
  FLASK_APP_AVAILABLE env = true →
  action_type = "approve" ∨ action_type = "reject" →
  Text.last_two (Text.split "_" action_data) = [action_type; mod_id_str] →
  Text.int mod_id_str = Some mod_id →
  is_Some (Query.get (mods (store c)) mod_id) →
  let after := user_data (review_action_callback env ev action_data c).1 in
  pending_mods_list after = pending_mods_list (user_data c) ∧
  review_index after = review_index (user_data c) + 1.
Proof.
  intros HF Hty Hsplit Hint [m Hget]. cbn zeta.
  unfold Query.get in Hget.
  unfold_handlers. unfold review_index. bot_simpl. rewrite HF. cbn.
  destruct (String.eqb_spec action_data "review_action_skip") as [->|_];
    [by vm_compute in Hsplit; simplify_eq|].
  destruct (String.eqb_spec action_data "main_menu_from_review") as [->|_];
    [by vm_compute in Hsplit; simplify_eq|].
  rewrite Hsplit, Hint. bot_simpl. unfold Query.get. rewrite Hget.
  destruct Hty as [-> | ->]; bot_simpl;
    repeat (case_match; simplify_eq; bot_simpl); cbn; done.
Qed.

(** The skip button carries the data [review_action_skip]; the pattern
    registered for the review state asks for an underscore after the
    action word, so no handler accepts the press: nothing changes. *)
Lemma skip_button_not_routed env w u now :
  Pattern.review_action "review_action_skip" = false ∧
  process_update env w (press_data u now "review_action_skip") = w.
Proof.
  split; [reflexivity|].
  unfold process_update, handle. cbn [update press_data effective_user].
  destruct (session w (user_id u)) as [ud [a s r m]].
  route "review_action_skip". reflexivity.
Qed.

(** C9. While a user is in a review pass (state REVIEW_MOD_ACTION), no
    update of anyone, routed through the application, changes that user's
    snapshot of pending identifiers, and the cursor index stays or advances
    by one: it never decreases and is never reset; new suggestions
    committed meanwhile are not inserted.  But not every action advances
    it: a press on the skip button is handled by nobody and leaves the
    cursor, with the whole system, where it is, although the review handler
    itself advances the index by exactly one on skip, as on approve and
    reject of a row that exists. *)
Theorem review_skip_press_keeps_cursor (env : Env) (w : World) (ev : Event)
    (u : User) (now : Z) :
  review_mods_state (conv (session w (user_id u))) = Some REVIEW_MOD_ACTION →
  cursor_step (data (session w (user_id u)))
    (data (session (process_update env w ev) (user_id u))) ∧
  (let w' := process_update env w (press_data u now "review_action_skip") in
   w' = w ∧
   review_index (data (session w' (user_id u)))
   = review_index (data (session w (user_id u)))) ∧
  (FLASK_APP_AVAILABLE env = true →
   ∀ c,
     review_index
       (user_data (review_action_callback env ev "review_action_skip" c).1)
     = review_index (user_data c) + 1 ∧
     ∀ action_data action_type mod_id_str mod_id,
       action_type = "approve" ∨ action_type = "reject" →
       Text.last_two (Text.split "_" action_data) = [action_type; mod_id_str] →
       Text.int mod_id_str = Some mod_id →
       is_Some (Query.get (mods (store c)) mod_id) →
       review_index
         (user_data (review_action_callback env ev action_data c).1)
       = review_index (user_data c) + 1).
Proof.
  intros Hrev. split; [|split].
  - destruct (decide (user_id (effective_user ev) = user_id u)) as [Heq|Hne].
    + rewrite <- Heq in *.
      pose proof (process_update_view env w ev) as Hview. cbn in Hview.
      destruct (handle env ev (db w) _) as [[[d s] t]|] eqn:Hh.
      * destruct Hview as (_ & -> & _). by eapply handle_steps.
      * rewrite Hview. split; [done|by left].
    + rewrite process_update_other by done. split; [done|by left].
  - destruct (skip_button_not_routed env w u now) as [_ Hskip].
    cbv zeta. by rewrite Hskip.
  - intros HF c. split.
    + by apply skip_advances.
    + intros. by eapply decision_advances.
Qed.

Lemma review_skip_press_keeps_cursor_witness :
  review_index
    (data (session
             (process_update env_ok reviewing
                (press_data the_owner 101 "review_action_skip"))
             OWNER_TELEGRAM_ID))
  = review_index (data (session reviewing OWNER_TELEGRAM_ID)).
Proof.
  destruct (review_skip_press_keeps_cursor env_ok reviewing
              (press_data the_owner 101 "review_action_approve_1")
              the_owner 101) as (_ & [_ Hskip] & _).
  - reflexivity.
  - exact Hskip.
Defined.

(** * The review pass through the application *)

(** Called directly, without the routing, the review handler does what
    section 8 describes: approve, skip, reject on the three cards in
    creation order, then the no-more-pending text and the menu. *)
Example review_pass_below_routing :
  let ev data := press_data the_owner 100 data in
  let c0 := mkCtx (db three_pending) empty_user_data [] in
  let c1 := (review_suggested_mods_start_callback env_ok (ev "start") c0).1 in
  let c2 := (review_action_callback env_ok (ev "a") "review_action_approve_1" c1).1 in
  let c3 := (review_action_callback env_ok (ev "s") "review_action_skip" c2).1 in
  let out := review_action_callback env_ok (ev "r") "review_action_reject_3" c3 in
  pending_mods_list (user_data c1) = Some [1; 2; 3] ∧
  id_and_status <$> mods (store out.1) =
    [(3, rejected); (1, approved); (2, pending_approval)] ∧
  out.2 = Ok END ∧
  drop 11 (trace out.1) =
    [edit_message_text NoMorePending [];
     edit_message_text (MainMenu "Owner" 1) main_menu_keyboard].
Proof. vm_compute. repeat split. Qed.

(** C1. Three pending submissions created at 10 < 20 < 30; the owner starts
    a review pass and presses, on the cards shown, approve, then skip, then
    reject.  The pass shows them in creation order, but the skip press
    changes nothing, so the reject lands on the second submission: the
    statuses end as approved, rejected, pending (for mods 1, 2, 3), the
    pass is still open on the third card and no no-more-pending text was
    shown. *)
Theorem review_pass_skip_is_dropped :
  let w1 := reviewing in
  let w2 := press_row env_ok 0 the_owner 101 w1 in
  let w3 := press_row env_ok 2 the_owner 102 w2 in
  let w4 := press_row env_ok 1 the_owner 103 w3 in
  pending_mods_list (data (session w1 OWNER_TELEGRAM_ID)) = Some [1; 2; 3] ∧
  press 2 the_owner 102 w2 = Some (press_data the_owner 102 "review_action_skip") ∧
  w3 = w2 ∧
  id_and_status <$> mods (db w4) =
    [(3, pending_approval); (1, approved); (2, rejected)] ∧
  review_mods_state (conv (session w4 OWNER_TELEGRAM_ID))
    = Some REVIEW_MOD_ACTION ∧
  current_review_mod_id (data (session w4 OWNER_TELEGRAM_ID)) = Some 3 ∧
  existsb (λ e, match e.2 with
                | edit_message_text NoMorePending _ => true
                | _ => false
                end) (history w4) = false.
Proof. vm_compute. repeat split. Qed.

(** After the three presses the cursor stands at 2, not at 3: the skip
    press did not move it. *)
Example review_pass_cursor_after_skip :
  let w2 := press_row env_ok 0 the_owner 101 reviewing in
  let w3 := press_row env_ok 2 the_owner 102 w2 in
  let w4 := press_row env_ok 1 the_owner 103 w3 in
  review_index (data (session w2 OWNER_TELEGRAM_ID)) = 1 ∧
  review_index (data (session w3 OWNER_TELEGRAM_ID)) = 1 ∧
  review_index (data (session w4 OWNER_TELEGRAM_ID)) = 2.
Proof. vm_compute. repeat split. Qed.

(** * The web surface *)

Lemma insert_sorted_elem {A} (le : A → A → bool) (x y : A) (l : list A) :
  y ∈ Query.insert_sorted le x l → y = x ∨ y ∈ l.
Proof.
  induction l as [|z l IH]; cbn.
  - intros ->%list_elem_of_singleton. by left.
  - destruct (le x z).
    + intros [->|H]%elem_of_cons; [by left|by right].
    + intros [->|H]%elem_of_cons; [right; left|].
      destruct (IH H) as [->|H']; [by left|right; by right].
Qed.

(** Ordering a query result adds no row to it. *)
Lemma order_by_elem {A} (le : A → A → bool) (y : A) (l : list A) :
  y ∈ Query.order_by le l → y ∈ l.
Proof.
  induction l as [|x l IH]; cbn; [done|].
  intros [->|H]%insert_sorted_elem; [left|right; by apply IH].
Qed.

Lemma filter_elem {A} (f : A → bool) (y : A) (l : list A) :
  y ∈ List.filter f l → y ∈ l ∧ f y = true.
Proof. rewrite !list_elem_of_In. apply filter_In. Qed.

Lemma is_approved_spec m : Routes.is_approved m = true ↔ Mod.status m = approved.
Proof. unfold Routes.is_approved. apply String.eqb_eq. Qed.

(** C10. Whatever the store holds, every mod a route hands to its page is a
    row of the store with status approved: the home list, the detail page
    (which is the row with the id asked for, and 404 exactly when no
    approved row has that id, so for every pending or rejected one), the
    list of a category (rows of that category only) and the search
    results. *)
Theorem web_serves_only_approved (s : Store) :
  Forall (λ m, m ∈ mods s ∧ Mod.status m = approved) (Routes.index s).1 ∧
  (∀ mod_id,
     match Routes.mod_detail s mod_id with
     | Routes.ok m => m ∈ mods s ∧ Mod.id m = mod_id ∧ Mod.status m = approved
     | Routes.not_found =>
         Forall (λ m, Mod.id m = mod_id → Mod.status m ≠ approved) (mods s)
     end) ∧
  (∀ mod_id,
     Forall (λ m, Mod.id m = mod_id → Mod.status m ≠ approved) (mods s) →
     Routes.mod_detail s mod_id = Routes.not_found) ∧
  (∀ category_id,
     match Routes.category_mods s category_id with
     | Routes.ok (category, ms) =>
         Forall (λ m, m ∈ mods s ∧ Mod.status m = approved ∧
                      Mod.category_id m = Some (Category.id category)) ms
     | Routes.not_found => True
     end) ∧
  (∀ query,
     Forall (λ m, m ∈ mods s ∧ Mod.status m = approved)
       (Routes.search s query)).
Proof.
  assert (Hdetail : ∀ mod_id,
     match Routes.mod_detail s mod_id with
     | Routes.ok m => m ∈ mods s ∧ Mod.id m = mod_id ∧ Mod.status m = approved
     | Routes.not_found =>
         Forall (λ m, Mod.id m = mod_id → Mod.status m ≠ approved) (mods s)
     end).
  { intros mod_id. unfold Routes.mod_detail.
    destruct (List.find _ (mods s)) as [m|] eqn:Hf.
    - apply find_some in Hf as [Hin [Hid Hap]%andb_prop].
      rewrite <- list_elem_of_In in Hin. apply is_approved_spec in Hap.
      split; [done|]. split; [lia|done].
    - apply Forall_forall. intros m Hin Hid Hst.
      rewrite list_elem_of_In in Hin.
      pose proof (find_none _ _ Hf m Hin) as Hno. cbn in Hno.
      apply is_approved_spec in Hst. rewrite Hst in Hno.
      rewrite andb_true_r in Hno. lia. }
  repeat split.
  - apply Forall_forall. intros m Hm. cbn in Hm.
    apply elem_of_take in Hm as (k & Hm%list_elem_of_lookup_2 & _).
    apply order_by_elem, filter_elem in Hm as [Hin Hst].
    split; [done|]. by apply String.eqb_eq in Hst.
  - apply Hdetail.
  - intros mod_id Hall. specialize (Hdetail mod_id).
    destruct (Routes.mod_detail s mod_id) as [m|]; [|done].
    destruct Hdetail as (Hin & Hid & Hst).
    rewrite Forall_forall in Hall. by destruct (Hall m Hin Hid).
  - intros category_id. unfold Routes.category_mods.
    destruct (List.find _ (categories s)) as [category|]; [|done].
    apply Forall_forall. intros m Hm.
    apply order_by_elem, filter_elem in Hm as [Hin [Hc Hst]%andb_prop].
    apply is_approved_spec in Hst. apply bool_decide_eq_true in Hc. done.
  - intros query. unfold Routes.search.
    destruct (String.eqb query ""); [constructor|].
    apply Forall_forall. intros m Hm.
    apply order_by_elem, filter_elem in Hm as [Hin [_ Hst]%andb_prop].
    apply is_approved_spec in Hst. done.
Qed.

(** The example of section 8, through the application: the owner creates
    "Adventure", then tries "ADVENTURE"; one category is stored and the
    second attempt is answered with the already-exists text. *)
Example adventure_twice :
  let w := run env_ok empty_world
             [press_data the_owner 1 "manage_categories_menu";
              press_data the_owner 2 "add_category_start";
              mkEvent the_owner 3 (text_message 10 "Adventure");
              press_data the_owner 4 "confirm_add_category_yes";
              press_data the_owner 5 "add_category_start";
              mkEvent the_owner 6 (text_message 11 "ADVENTURE");
              press_data the_owner 7 "confirm_add_category_yes"] in
  categories (db w) = [Category.mk 1 "Adventure"] ∧
  (OWNER_TELEGRAM_ID, edit_message_text (CategoryExists "ADVENTURE") [])
    ∈ history w.
Proof.
  vm_compute. split; [reflexivity|].
  apply list_elem_of_In. cbn. tauto.
Qed.

(** * Callback data of the review card *)

Lemma pretty_N_char_digit x :
  (x < 10)%N →
  Text.is_digit (pretty_N_char x) = true ∧
  Z.of_nat (nat_of_ascii (pretty_N_char x)) - 48 = Z.of_N x.
Proof.
  intros Hx.
  assert (x = 0 ∨ x = 1 ∨ x = 2 ∨ x = 3 ∨ x = 4 ∨ x = 5 ∨ x = 6 ∨ x = 7
          ∨ x = 8 ∨ x = 9)%N as Hc by lia.
  repeat destruct Hc as [->|Hc]; try subst x; by vm_compute.
Qed.

(** Reading back what [pretty_N_go] writes in front of [s]. *)
Lemma digits_value_pretty_N_go x s :
  Text.digits_value (pretty_N_go x s) 0 = Text.digits_value s (Z.of_N x).
Proof.
  revert s. induction (N.lt_wf_0 x) as [x _ IH]; intros s.
  assert (x = 0 ∨ 0 < x)%N as [->|Hpos] by lia; [done|].
  rewrite pretty_N_go_step by done.
  rewrite IH by (by apply N.div_lt).
  destruct (pretty_N_char_digit (x `mod` 10)) as [Hd Hv];
    [by apply N.mod_lt|].
  cbn [Text.digits_value]. rewrite Hd, Hv. f_equal.
  rewrite (N.div_mod x 10) at 3 by done. lia.
Qed.

Lemma pretty_N_go_head x s :
  (0 < x)%N ∨ (∃ c r, s = String c r ∧ Text.is_digit c = true) →
  ∃ c r, pretty_N_go x s = String c r ∧ Text.is_digit c = true.
Proof.
  revert s. induction (N.lt_wf_0 x) as [x _ IH]; intros s Hor.
  assert (x = 0 ∨ 0 < x)%N as [->|Hpos] by lia.
  - destruct Hor as [?|?]; [lia|done].
  - rewrite pretty_N_go_step by done. apply IH; [by apply N.div_lt|].
    right. eexists _, _. split; [done|].
    by apply pretty_N_char_digit, N.mod_lt.
Qed.

Lemma all_chars_pretty_N_go (P : ascii → bool) x s :
  (∀ d, (d < 10)%N → P (pretty_N_char d) = true) →
  all_chars P s = true → all_chars P (pretty_N_go x s) = true.
Proof.
  intros HP. revert s. induction (N.lt_wf_0 x) as [x _ IH]; intros s Hs.
  assert (x = 0 ∨ 0 < x)%N as [->|Hpos] by lia; [done|].
  rewrite pretty_N_go_step by done. apply IH; [by apply N.div_lt|].
  cbn. rewrite HP by (by apply N.mod_lt). done.
Qed.

Lemma int_of_digits c r :
  Text.is_digit c = true →
  Text.int (String c r) = Text.digits_value (String c r) 0.
Proof.
  intros Hc. unfold Text.int.
  destruct c as [[] [] [] [] [] [] [] []]; try done.
Qed.

Lemma pretty_pos_digits (p : positive) :
  ∃ c r, pretty (N.pos p) = String c r ∧ Text.is_digit c = true ∧
         Text.digits_value (String c r) 0 = Some (Z.pos p).
Proof.
  unfold pretty, pretty_N. destruct (decide (N.pos p = 0%N)); [done|].
  destruct (pretty_N_go_head (N.pos p) "") as (c & r & Heq & Hc); [left; lia|].
  exists c, r. repeat split; [done..|].
  rewrite <- Heq, digits_value_pretty_N_go. done.
Qed.

(** [int(str(z)) == z] *)
Lemma int_pretty (z : Z) : Text.int (pretty z) = Some z.
Proof.
  destruct z as [|p|p]; [done|..].
  - change (pretty (Z.pos p)) with (pretty (N.pos p)).
    destruct (pretty_pos_digits p) as (c & r & -> & Hc & Hv).
    by rewrite int_of_digits.
  - change (pretty (Z.neg p)) with ("-" +:+ pretty (N.pos p)).
    destruct (pretty_pos_digits p) as (c & r & -> & Hc & Hv).
    change (Text.int ("-" +:+ String c r))
      with (Z.opp <$> Text.digits_value (String c r) 0).
    rewrite Hv. done.
Qed.

Lemma all_chars_pretty_Z (P : ascii → bool) (z : Z) :
  (∀ c, decimal_char c = true → P c = true) →
  all_chars P (pretty z) = true.
Proof.
  intros HP.
  assert (Hd : ∀ d, (d < 10)%N → P (pretty_N_char d) = true).
  { intros d Hd. apply HP. unfold decimal_char.
    by destruct (pretty_N_char_digit d Hd) as [-> _]. }
  assert (Hn : ∀ n : N, all_chars P (pretty n) = true).
  { intros n. unfold pretty, pretty_N. case_decide.
    - cbn. rewrite (HP "0"%char) by done. done.
    - by apply all_chars_pretty_N_go. }
  destruct z as [|p|p].
  - cbn. rewrite (HP "0"%char) by done. done.
  - apply (Hn (N.pos p)).
  - change (all_chars P (pretty (Z.neg p)))
      with (P "-"%char && all_chars P (pretty (N.pos p))).
    rewrite (HP "-"%char) by done. apply (Hn (N.pos p)).
Qed.

Lemma split_no_sep sep s :
  all_chars (λ c, negb (Ascii.eqb c sep)) s = true → Text.split sep s = [s].
Proof.
  induction s as [|c s IH]; cbn; [done|].
  intros [Hc Hs]%andb_prop. apply negb_true_iff in Hc. rewrite Hc.
  by rewrite (IH Hs).
Qed.

Lemma dot_star_dollar_no_newline s :
  all_chars (λ c, negb (Ascii.eqb c "010")) s = true →
  Text.dot_star_dollar s = true.
Proof.
  induction s as [|c s IH]; cbn; [done|].
  intros [Hc Hs]%andb_prop. rewrite Hc, (IH Hs). by rewrite orb_true_r.
Qed.

(** The data of a decision button, as the pattern and the handler read
    it. *)
Lemma review_data_parts (mod_id : Z) (action : string) :
  action = "approve" ∨ action = "reject" →
  let data := "review_action_" +:+ action +:+ "_" +:+ pretty mod_id in
  Pattern.review_action data = true ∧
  Text.last_two (Text.split "_" data) = [action; pretty mod_id].
Proof.
  intros Hact data.
  assert (Hsplit : Text.split "_" (pretty mod_id) = [pretty mod_id]).
  { apply split_no_sep, all_chars_pretty_Z.
    intros c. unfold decimal_char. by destruct c as [[] [] [] [] [] [] [] []]. }
  assert (Hdot : Text.dot_star_dollar (pretty mod_id) = true).
  { apply dot_star_dollar_no_newline, all_chars_pretty_Z.
    intros c. unfold decimal_char. by destruct c as [[] [] [] [] [] [] [] []]. }
  subst data. unfold Pattern.review_action.
  generalize dependent (pretty mod_id). intros s Hsplit Hdot.
  destruct Hact as [-> | ->]; cbv [String.append]; cbn;
    rewrite Hsplit, Hdot; cbn; done.
Qed.

(** X1. The approve and reject buttons of the card of mod [mod_id] carry
    data that the pattern of the review state accepts and that the handler
    reads back as the action and this very identifier. *)
Theorem review_buttons_round_trip (mod_id : Z) (action : string) :
  action = "approve" ∨ action = "reject" →
  let data := "review_action_" +:+ action +:+ "_" +:+ pretty mod_id in
  [data] ∈ review_keyboard mod_id ∧
  Pattern.review_action data = true ∧
  Text.last_two (Text.split "_" data) = [action; pretty mod_id] ∧
  Text.int (pretty mod_id) = Some mod_id.
Proof.
  intros Hact data.
  destruct (review_data_parts mod_id action Hact) as [Hpat Hsplit].
  fold data in Hpat, Hsplit.
  repeat split; [|done|done|apply int_pretty].
  subst data. unfold review_keyboard. apply list_elem_of_In.
  destruct Hact as [-> | ->]; cbn; tauto.
Qed.

Lemma review_buttons_round_trip_witness :
  Text.last_two (Text.split "_" "review_action_reject_42") = ["reject"; "42"].
Proof.
  apply (review_buttons_round_trip 42 "reject"). by right.
Defined.

(** * What a review decision does to the store *)

Lemma get_update_status_same ms mod_id status now m :
  Query.get ms mod_id = Some m →
  Query.get (mods (Query.update_status mod_id status now (mkStore ms [] [])))
    mod_id = Some (Mod.set_status status now m).
Proof.
  unfold Query.get. cbn. induction ms as [|r ms IH]; cbn; [done|].
  destruct (Mod.id r =? mod_id) eqn:E; cbn.
  - rewrite E. by intros [= ->].
  - rewrite E. done.
Qed.

Lemma get_update_status_other ms mod_id status now k :
  k ≠ mod_id →
  Query.get (mods (Query.update_status mod_id status now (mkStore ms [] []))) k
  = Query.get ms k.
Proof.
  intros Hk. unfold Query.get. cbn. induction ms as [|r ms IH]; cbn; [done|].
  destruct (Mod.id r =? mod_id) eqn:E; cbn; rewrite IH; [|done].
  assert ((Mod.id r =? k) = false) as -> by lia. done.
Qed.

Lemma ids_update_status ms mod_id status now :
  Mod.id <$> mods (Query.update_status mod_id status now (mkStore ms [] []))
  = Mod.id <$> ms.
Proof.
  cbn. induction ms as [|r ms IH]; cbn; [done|].
  rewrite <- IH. by destruct (Mod.id r =? mod_id).
Qed.

(** X2. Approving or rejecting through the button of a card, for a row
    that exists (whatever its status is at that moment): the row with that
    key gets the new status and the time of the update, every other key
    reads as before, no row is added or removed, the categories and admins
    are untouched; and the only message to another chat is the notice to
    the row's uploader, none when the uploader is the owner. *)
Theorem review_decision_effect (env : Env) (ev : Event) (c : Ctx)
    (mod_id : Z) (m : Mod.t) (action : string) :
  FLASK_APP_AVAILABLE env = true →
  action = "approve" ∨ action = "reject" →
  Query.get (mods (store c)) mod_id = Some m →
  let data := "review_action_" +:+ action +:+ "_" +:+ pretty mod_id in
  let out := review_action_callback env ev data c in
  let uploader := Mod.uploader_telegram_id m in
  store out.1 =
    Query.update_status mod_id (decision_status action) (utcnow ev) (store c) ∧
  Query.get (mods (store out.1)) mod_id =
    Some (Mod.set_status (decision_status action) (utcnow ev) m) ∧
  (∀ k, k ≠ mod_id →
        Query.get (mods (store out.1)) k = Query.get (mods (store c)) k) ∧
  Mod.id <$> mods (store out.1) = Mod.id <$> mods (store c) ∧
  ∃ t, trace out.1 = (trace c ++ t)%list ∧
       List.filter is_send_message t =
         if uploader =? OWNER_TELEGRAM_ID then []
         else [send_message uploader
                 (decision_notice action (Mod.name m))
                 (reachable env uploader)].
Proof.
  intros HF Hact Hget data out uploader.
  destruct (review_data_parts mod_id action Hact) as [_ Hsplit].
  pose proof (int_pretty mod_id) as Hint.
  fold data in Hsplit.
  assert (Hout : store out.1 =
            Query.update_status mod_id (decision_status action) (utcnow ev)
              (store c) ∧
          ∃ t, trace out.1 = (trace c ++ t)%list ∧
               List.filter is_send_message t =
                 if uploader =? OWNER_TELEGRAM_ID then []
                 else [send_message uploader
                         (decision_notice action (Mod.name m))
                         (reachable env uploader)]).
  { subst out uploader. clearbody data.
    unfold Query.get in Hget. unfold_handlers. bot_simpl. rewrite HF. cbn.
    destruct (String.eqb_spec data "review_action_skip") as [->|_];
      [by vm_compute in Hsplit; destruct Hact; simplify_eq|].
    destruct (String.eqb_spec data "main_menu_from_review") as [->|_];
      [by vm_compute in Hsplit; destruct Hact; simplify_eq|].
    rewrite Hsplit, Hint. bot_simpl. unfold Query.get. rewrite Hget.
    destruct Hact as [-> | ->];
      destruct (Mod.uploader_telegram_id m =? OWNER_TELEGRAM_ID);
      destruct (reachable env (Mod.uploader_telegram_id m));
      bot_simpl; repeat (case_match; simplify_eq; bot_simpl); cbn;
      (split; [done|]); eexists; (split; [reflexivity|]); done. }
  destruct Hout as (Hstore & Htrace).
  rewrite Hstore. destruct (store c) as [ms cs ads]. cbn in Hget.
  repeat split; [..|done].
  - by apply (get_update_status_same ms).
  - intros k Hk. by apply (get_update_status_other ms).
  - by apply (ids_update_status ms).
Qed.

Lemma review_decision_effect_witness :
  Mod.status <$>
    mods (store (review_action_callback env_ok
                   (press_data the_owner 101 "review_action_reject_2")
                   "review_action_reject_2"
                   (mkCtx (db three_pending) empty_user_data [])).1)
  = [pending_approval; pending_approval; rejected].
Proof.
  pose proof (review_decision_effect env_ok
                (press_data the_owner 101 "review_action_reject_2")
                (mkCtx (db three_pending) empty_user_data []) 2
                (pending_mod 2 20) "reject" eq_refl (or_intror eq_refl) eq_refl)
    as (Hstore & _).
  cbv zeta in Hstore.
  change ("review_action_" +:+ "reject" +:+ "_" +:+ pretty 2)
    with "review_action_reject_2" in Hstore.
  rewrite Hstore. reflexivity.
Defined.

(** * Ordering of query results *)

Section OrderBySorted.
Context {A : Type} (le : A → A → bool) (R : A → A → Prop).
Hypothesis le_true : ∀ x y, le x y = true → R x y.
Hypothesis le_false : ∀ x y, le x y = false → R y x.
Hypothesis R_trans : ∀ x y z, R x y → R y z → R x z.

Lemma insert_sorted_Permutation (x : A) (l : list A) :
  Permutation (Query.insert_sorted le x l) (x :: l).
Proof.
  induction l as [|y l IH]; cbn; [done|].
  destruct (le x y); [done|].
  rewrite IH. apply perm_swap.
Qed.

Lemma order_by_Permutation (l : list A) : Permutation (Query.order_by le l) l.
Proof.
  induction l as [|x l IH]; cbn; [done|].
  by rewrite insert_sorted_Permutation, IH.
Qed.

Lemma insert_sorted_sorted (x : A) (l : list A) :
  StronglySorted R l → StronglySorted R (Query.insert_sorted le x l).
Proof.
  induction 1 as [|y l Hl IH Hy]; cbn.
  - repeat constructor.
  - destruct (le x y) eqn:E.
    + constructor; [by constructor|].
      constructor; [by apply le_true|].
      eapply Forall_impl; [exact Hy|]. intros z Hz. cbn in Hz.
      eapply R_trans; [by apply le_true|done].
    + constructor; [done|].
      rewrite (insert_sorted_Permutation x l).
      constructor; [by apply le_false|done].
Qed.

Lemma order_by_sorted (l : list A) : StronglySorted R (Query.order_by le l).
Proof.
  induction l as [|x l IH]; cbn; [constructor|].
  by apply insert_sorted_sorted.
Qed.
End OrderBySorted.

(** X3. When the owner starts a review and something is pending, the
    snapshot stored in the session is the list of keys of exactly the
    pending rows (each once), oldest first, and the cursor is at 0; the
    store is not changed. *)
Theorem review_start_snapshot (env : Env) (ev : Event) (c : Ctx) :
  FLASK_APP_AVAILABLE env = true →
  user_id (effective_user ev) = OWNER_TELEGRAM_ID →
  Query.filter_by_status pending_approval (mods (store c)) ≠ [] →
  let out := review_suggested_mods_start_callback env ev c in
  store out.1 = store c ∧
  current_review_index (user_data out.1) = Some 0 ∧
  ∃ pending,
    pending_mods_list (user_data out.1) = Some (Mod.id <$> pending) ∧
    Permutation pending
      (Query.filter_by_status pending_approval (mods (store c))) ∧
    StronglySorted created_before pending.
Proof.
  intros HF Hown Hne out.
  assert (Hout : store out.1 = store c ∧
                 current_review_index (user_data out.1) = Some 0 ∧
                 pending_mods_list (user_data out.1) =
                   Some (Mod.id <$> Query.order_by Query.created_at_asc
                           (Query.filter_by_status pending_approval
                              (mods (store c))))).
  { subst out.
    pose proof (order_by_Permutation Query.created_at_asc
                  (Query.filter_by_status pending_approval (mods (store c))))
      as Hperm.
    unfold review_suggested_mods_start_callback. unfold_handlers.
    unfold is_owner. rewrite Hown. bot_simpl. rewrite HF. cbn.
    destruct (Query.order_by Query.created_at_asc
                (Query.filter_by_status pending_approval (mods (store c))))
      as [|p ps] eqn:Hp.
    { by apply Permutation_nil in Hperm. }
    bot_simpl. repeat (case_match; simplify_eq; bot_simpl); cbn; try done;
      lia. }
  destruct Hout as (Hs & Hi & Hl). repeat split; [done..|].
  eexists. split; [exact Hl|]. split.
  - apply order_by_Permutation.
  - apply (order_by_sorted Query.created_at_asc created_before);
      unfold Query.created_at_asc, created_before; intros; lia.
Qed.

Lemma review_start_snapshot_witness :
  pending_mods_list
    (user_data (review_suggested_mods_start_callback env_ok
                  (press_data the_owner 100 "review_suggested_mods_start")
                  (mkCtx (db three_pending) empty_user_data [])).1)
  = Some [1; 2; 3].
Proof.
  destruct (review_start_snapshot env_ok
              (press_data the_owner 100 "review_suggested_mods_start")
              (mkCtx (db three_pending) empty_user_data [])
              eq_refl eq_refl) as (_ & _ & pending & Hl & _).
  { discriminate. }
  reflexivity.
Defined.

(** * Routing: what the registered handlers let through *)

(** X4. None of the four conversations can be re-entered: while a user is
    inside a conversation, in whatever state, pressing the button that
    opens it is handled by nobody and changes nothing. *)
Theorem entry_ignored_inside_conversation (env : Env) (w : World) (u : User)
    (now : Z) (i : ConvId) :
  conv_state i (conv (session w (user_id u))) ≠ None →
  process_update env w (press_data u now (entry_data i)) = w.
Proof.
  intros Hin.
  unfold process_update, handle. cbn [update press_data effective_user].
  destruct (session w (user_id u)) as [ud [a s r m]]. cbn in Hin.
  destruct i; cbn [entry_data].
  - route "add_mod_start". by destruct a as [[]|].
  - route "suggest_new_mod_start". by destruct s as [[]|].
  - route "review_suggested_mods_start". by destruct r as [[]|].
  - route "manage_categories_menu". by destruct m as [[]|].
Qed.

Lemma entry_ignored_inside_conversation_witness :
  process_update env_ok reviewing
    (press_data the_owner 200 "review_suggested_mods_start") = reviewing.
Proof.
  apply (entry_ignored_inside_conversation env_ok reviewing the_owner 200
           review_mods_conv).
  vm_compute. discriminate.
Defined.

Lemma select_cases cs u target cb :
  select application cs u = Some (target, cb) →
  (target = None ∧
   (CommandHandler "start" start_command u = Some cb ∨
    CallbackQueryHandler (no_data view_stats_callback)
      (Pattern.one_of ["view_stats"]) u = Some cb ∨
    AnyCommandHandler unknown_command u = Some cb)) ∨
  (∃ i, target = Some i ∧
        conversation_check (conversation i) (conv_state i cs) u = Some cb).
Proof.
  intros Hsel. unfold application in Hsel. cbn [select] in Hsel.
  repeat match type of Hsel with
         | match conversation_check (conversation ?i) ?st u with _ => _ end = _ =>
             let E := fresh "E" in
             destruct (conversation_check (conversation i) st u) eqn:E;
             [injection Hsel as <- <-; right; exists i; split; [reflexivity|exact E]|]
         | match ?h u with _ => _ end = _ =>
             let E := fresh "E" in
             destruct (h u) eqn:E;
             [injection Hsel as <- <-; left; split; [reflexivity|];
              first [left; reflexivity | right; left; reflexivity
                    | right; right; reflexivity]|]
         end.
  discriminate.
Qed.

Lemma strip_prefix_app p s r : Text.strip_prefix p s = Some r → s = p +:+ r.
Proof.
  revert s. induction p as [|c p IH]; intros s; cbn.
  - by intros [= ->].
  - destruct s as [|d s]; [done|].
    destruct (Ascii.eqb_spec c d) as [->|]; [|done].
    intros ->%IH. done.
Qed.

Lemma main_menu_conversation i st rest cb :
  conversation_check (conversation i) st
    (callback_query ("main_menu_" +:+ rest)) = Some cb →
  cb = λ env ev, no_data main_menu_fallback env ev ("main_menu_" +:+ rest).
Proof.
  cbv [String.append].
  destruct i; destruct st as [[]|]; cbn; unfold Text.match_prefix; cbn;
    intros Hc; repeat case_match; by simplify_eq.
Qed.

Lemma main_menu_fallback_effect env ev c :
  ∃ t, main_menu_fallback env ev c =
         (mkCtx (store c) (user_data c) (trace c ++ t)%list, Ok Unchanged).
Proof.
  unfold main_menu_fallback, go_to_main_menu_owner. bot_simpl.
  destruct (FLASK_APP_AVAILABLE env); bot_simpl; by eexists.
Qed.

(** X5. A button whose data starts with [main_menu_] (the return-to-menu
    buttons of the review and the category menus among them) never ends a
    conversation: whoever presses it, in whatever state, the store, every
    session's data and every conversation state are as before; at most the
    menu is shown. *)
Theorem main_menu_buttons_end_nothing (env : Env) (w : World) (u : User)
    (now : Z) (data : string) :
  Text.match_prefix "main_menu_" data = true →
  let w' := process_update env w (press_data u now data) in
  db w' = db w ∧ ∀ v, session w' v = session w v.
Proof.
  intros Hpre w'.
  unfold Text.match_prefix in Hpre. apply bool_decide_eq_true in Hpre as [rest Hrest].
  apply strip_prefix_app in Hrest as ->.
  assert (Hh : match handle env (press_data u now ("main_menu_" +:+ rest))
                       (db w) (session w (user_id u)) with
               | Some (d, s, _) => d = db w ∧ s = session w (user_id u)
               | None => True
               end).
  { unfold handle. cbn [update press_data].
    destruct (select _ _ _) as [[target cb]|] eqn:Hsel; [|done].
    apply select_cases in Hsel as [(_ & Hplain)|(i & -> & Hconv)].
    - cbv [String.append] in Hplain. cbn in Hplain.
      by destruct Hplain as [?|[?|?]].
    - apply main_menu_conversation in Hconv as ->. unfold no_data.
      destruct (main_menu_fallback_effect env
                  (press_data u now ("main_menu_" +:+ rest))
                  (mkCtx (db w) (data (session w (user_id u))) []))
        as [t ->].
      cbn. split; [done|]. by destruct (session w (user_id u)). }
  pose proof (process_update_view env w
                (press_data u now ("main_menu_" +:+ rest))) as Hview.
  cbn in Hview. fold w' in Hview.
  destruct (handle _ _ _ _) as [[[d s] t]|].
  - destruct Hview as (-> & Hs & _). destruct Hh as (-> & ->).
    split; [done|]. intros v.
    destruct (decide (user_id u = v)) as [<-|Hne]; [done|].
    by apply process_update_other.
  - by rewrite Hview.
Qed.

Lemma main_menu_buttons_end_nothing_witness :
  review_mods_state
    (conv (session
             (process_update env_ok reviewing
                (press_data the_owner 200 "main_menu_from_review"))
             OWNER_TELEGRAM_ID)) = Some REVIEW_MOD_ACTION.
Proof.
  destruct (main_menu_buttons_end_nothing env_ok reviewing the_owner 200
              "main_menu_from_review" eq_refl) as (_ & Hs).
  rewrite Hs. reflexivity.
Defined.

(** * The /start command *)

Lemma find_app_none {A} (f : A → bool) (l l' : list A) :
  List.find f l = None → List.find f (l ++ l') = List.find f l'.
Proof.
  induction l as [|x l IH]; cbn; [done|]. by destruct (f x).
Qed.

Lemma start_handle env u now d sess :
  ∃ d' t,
    handle env (mkEvent u now (command_message "start")) d sess
      = Some (d', sess, t) ∧
    mods d' = mods d ∧ categories d' = categories d ∧
    (user_id u ≠ OWNER_TELEGRAM_ID → d' = d) ∧
    (has_owner_row d → d' = d) ∧
    (user_id u = OWNER_TELEGRAM_ID → FLASK_APP_AVAILABLE env = true →
     has_owner_row d') ∧
    (user_id u ≠ OWNER_TELEGRAM_ID →
     reply_text (WelcomeUser (first_name u)) [["suggest_new_mod_start"]] ∈ t).
Proof.
  unfold handle, has_owner_row. cbn [update select application CommandHandler].
  cbn. unfold start_command, go_to_main_menu_owner, is_owner. cbn.
  destruct (user_id u =? OWNER_TELEGRAM_ID) eqn:Hown;
    destruct (FLASK_APP_AVAILABLE env) eqn:HF; bot_simpl; rewrite ?HF;
    bot_simpl;
    try destruct (List.find _ (admins d)) eqn:Hfind; bot_simpl;
    eexists _, _; (split; [by destruct sess|]);
    repeat split; try done; try lia; intros;
    try (by destruct d); try (by destruct Hfind);
    try (apply list_elem_of_In; cbn; tauto).
  cbn [admins with_admins]. rewrite (find_app_none _ _ _ Hfind). cbn.
  by eexists.
Qed.

(** X6. [/start] is taken by the handler registered first, whatever
    conversation the sender is in: nobody's session data or conversation
    state changes (a flow in progress is neither ended nor cleared), and the
    mods and categories are untouched.  For the owner, with the models
    available, the admins table holds an owner row afterwards; when it
    already does, and for every other user, the store is unchanged. *)
Theorem start_command_effect (env : Env) (w : World) (u : User) (now : Z) :
  let w' := process_update env w (mkEvent u now (command_message "start")) in
  (∀ v, session w' v = session w v) ∧
  mods (db w') = mods (db w) ∧
  categories (db w') = categories (db w) ∧
  (user_id u ≠ OWNER_TELEGRAM_ID → db w' = db w) ∧
  (has_owner_row (db w) → db w' = db w) ∧
  (user_id u = OWNER_TELEGRAM_ID → FLASK_APP_AVAILABLE env = true →
   has_owner_row (db w')).
Proof.
  intros w'.
  destruct (start_handle env u now (db w) (session w (user_id u)))
    as (d' & t & Hh & Hm & Hc & Hno & Hhas & Hown & _).
  pose proof (process_update_view env w
                (mkEvent u now (command_message "start"))) as Hview.
  cbv zeta in Hview. cbn [effective_user] in Hview. fold w' in Hview.
  rewrite Hh in Hview.
  destruct Hview as (-> & Hs & _).
  repeat split; try done.
  intros v. destruct (decide (user_id u = v)) as [<-|Hne]; [done|].
  by apply process_update_other.
Qed.

(** * Ends of the suggest flow, commands, and the review card *)

(** X8. A suggest flow ended with the cancel button leaves the store as it
    was, drops the buffer, ends the conversation and sends nothing to
    another chat: the owner is not notified. *)
Theorem suggest_flow_cancel (env : Env) (w : World) (u : User)
    (clock ids : nat → Z) (i : ModInput) :
  add_mod_state (conv (session w (user_id u))) = None →
  suggest_mod_state (conv (session w (user_id u))) = None →
  let w' := run env w
              (mod_flow "suggest_new_mod_start" "confirm_suggest_mod_cancel" u
                 clock ids i) in
  db w' = db w ∧
  suggested_mod (data (session w' (user_id u))) = None ∧
  suggest_mod_state (conv (session w' (user_id u))) = None ∧
  ∃ t, history w' = (history w ++ (pair (user_id u) <$> t))%list ∧
       List.filter is_send_message t = [] ∧
       edit_message_text SuggestCancelled [] ∈ t.
Proof.
  intros Hidle1 Hidle2 w'.
  destruct (session w (user_id u)) as [ud [a s r m]] eqn:Hsess.
  cbn in Hidle1, Hidle2. subst a s.
  destruct (run_session env
              (mod_flow "suggest_new_mod_start" "confirm_suggest_mod_cancel" u
                 clock ids i)
              (db w) (session w (user_id u)) []) as [[d s'] t] eqn:Hrun.
  destruct (run_one_user env (user_id u) _
              (mod_flow_one_user _ _ u clock ids i) w [] _ _ _ Hrun)
    as (Hdb & Hs & t' & -> & Hh).
  fold w' in Hdb, Hs, Hh. rewrite Hdb, Hs, Hh.
  revert Hrun. rewrite Hsess. unfold mod_flow, run_session, handle.
  destruct (FLASK_APP_AVAILABLE env) eqn:HF; flow_simpl HF;
    intros [= <- <- <-]; repeat split; try done;
    eexists; (split; [reflexivity|]); (split; [reflexivity|]);
    apply list_elem_of_In; cbn; tauto.
Qed.

Lemma suggest_flow_cancel_witness :
  db (run env_ok empty_world
        (mod_flow "suggest_new_mod_start" "confirm_suggest_mod_cancel" alice
           Z.of_nat Z.of_nat test_mod)) = db empty_world.
Proof.
  apply (suggest_flow_cancel env_ok empty_world alice Z.of_nat Z.of_nat
           test_mod); reflexivity.
Defined.

(** X9. With the models not imported, confirming an add or a suggestion
    with a buffer in place answers with the database-error text and ends
    the conversation before the buffer is dropped: the store and the whole
    session data, buffer included, are as before. *)
Theorem confirm_without_models (env : Env) (ev : Event) (c : Ctx) :
  FLASK_APP_AVAILABLE env = false →
  let refused :=
    (mkCtx (store c) (user_data c)
       (trace c ++ [log_warning NoFlaskContext; answer;
                    edit_message_text DatabaseUnavailable []])%list,
     Ok END) in
  (is_Some (current_mod (user_data c)) →
   confirm_add_mod_callback env ev "confirm_add_mod_yes" c = refused) ∧
  (is_Some (suggested_mod (user_data c)) →
   confirm_suggest_mod_callback env ev "confirm_suggest_mod_yes" c = refused).
Proof.
  intros HF refused. subst refused.
  split; intros [buf Hbuf]; unfold_handlers; bot_simpl; rewrite HF, Hbuf;
    bot_simpl; rewrite ?HF; bot_simpl; reflexivity.
Qed.

Lemma confirm_without_models_witness :
  confirm_add_mod_callback (mkEnv false (λ _, true))
    (press_data the_owner 7 "confirm_add_mod_yes") "confirm_add_mod_yes"
    (mkCtx (mkStore [] [] [])
       (mkUserData (Some ∅) None None None None None) [])
  = (mkCtx (mkStore [] [] [])
       (mkUserData (Some ∅) None None None None None)
       [log_warning NoFlaskContext; answer;
        edit_message_text DatabaseUnavailable []], Ok END).
Proof.
  apply (confirm_without_models (mkEnv false (λ _, true))
           (press_data the_owner 7 "confirm_add_mod_yes")
           (mkCtx (mkStore [] [] [])
              (mkUserData (Some ∅) None None None None None) []) eq_refl).
  by eexists.
Defined.

(** X10. A bot command other than [/start] is answered with the
    unknown-command text and nothing else happens, whatever flows the sender
    is in: a command is never read as the text of a field. *)
Theorem other_commands_change_nothing (env : Env) (w : World) (u : User)
    (now : Z) (command : string) :
  command ≠ "start" →
  let w' := process_update env w (mkEvent u now (command_message command)) in
  db w' = db w ∧ (∀ v, session w' v = session w v) ∧
  history w' = (history w ++ [(user_id u, reply_text UnknownCommand [])])%list.
Proof.
  intros Hcmd w'.
  assert (Hh : handle env (mkEvent u now (command_message command)) (db w)
                 (session w (user_id u))
               = Some (db w, session w (user_id u),
                       [reply_text UnknownCommand []])).
  { unfold handle. cbn [update].
    destruct (session w (user_id u)) as [ud [a s r m]].
    assert (Hne : String.eqb command "start" = false)
      by (by apply String.eqb_neq).
    assert (Hconv : ∀ i st, conversation_check (conversation i) st
                              (command_message command) = None).
    { intros i st. destruct i; destruct st as [[]|]; cbn; rewrite ?Hne; done. }
    unfold application. cbn [select CommandHandler]. rewrite Hne, !Hconv.
    cbn. reflexivity. }
  pose proof (process_update_view env w
                (mkEvent u now (command_message command))) as Hview.
  cbv zeta in Hview. cbn [effective_user] in Hview. fold w' in Hview.
  rewrite Hh in Hview. destruct Hview as (-> & Hs & ->).
  repeat split. intros v.
  destruct (decide (user_id u = v)) as [<-|Hne]; [done|].
  by apply process_update_other.
Qed.

Lemma other_commands_change_nothing_witness :
  db (process_update env_ok reviewing
        (mkEvent the_owner 150 (command_message "help"))) = db reviewing.
Proof.
  apply (other_commands_change_nothing env_ok reviewing the_owner 150 "help").
  discriminate.
Defined.

(** X11. The display step, with the cursor not negative: past the end of
    the snapshot it shows the no-more-pending text and the menu and ends
    the pass, changing neither store nor session; inside the snapshot, on a
    row that exists, it shows that row's card numbered position + 1 of the
    snapshot's length with the buttons of that row, records the row as the
    one under review, and stays in the review state. *)
Theorem display_card_or_end (env : Env) (ev : Event) (c : Ctx) :
  FLASK_APP_AVAILABLE env = true →
  0 ≤ review_index (user_data c) →
  let idx := review_index (user_data c) in
  let pending_ids := default [] (pending_mods_list (user_data c)) in
  let out := display_pending_mod_for_review env ev c in
  (Z.of_nat (length pending_ids) ≤ idx →
   out = (mkCtx (store c) (user_data c)
            (trace c ++
             [edit_message_text NoMorePending [];
              edit_message_text
                (MainMenu (first_name (effective_user ev))
                   (Z.of_nat (length (Query.filter_by_status pending_approval
                                        (mods (store c))))))
                main_menu_keyboard])%list,
          Ok END)) ∧
  (∀ mod_id m,
     pending_ids !! Z.to_nat idx = Some mod_id →
     Query.get (mods (store c)) mod_id = Some m →
     out = (mkCtx (store c) (set_current_review_mod_id mod_id (user_data c))
              (trace c ++
               [edit_message_text
                  (ReviewCard (idx + 1) (Z.of_nat (length pending_ids))
                     (Mod.uploader_telegram_id m) (Mod.name m)
                     (Mod.description m) (Mod.download_link m)
                     (Mod.image_filename m))
                  (review_keyboard mod_id)])%list,
            Ok (Goto REVIEW_MOD_ACTION))).
Proof.
  intros HF Hpos idx pending_ids out. subst idx pending_ids out.
  unfold review_index in *. split.
  - intros Hend.
    assert (E : (Z.of_nat (length (default [] (pending_mods_list (user_data c))))
                 <=? default 0 (current_review_index (user_data c))) = true)
      by lia.
    unfold display_pending_mod_for_review, go_to_main_menu_owner.
    bot_simpl. rewrite HF, E. bot_simpl. by destruct c.
  - intros mod_id m Hlook Hget.
    pose proof (lookup_lt_Some _ _ _ Hlook) as Hlt.
    assert (E1 : (Z.of_nat (length (default [] (pending_mods_list (user_data c))))
                  <=? default 0 (current_review_index (user_data c))) = false)
      by lia.
    assert (E2 : (0 <=? default 0 (current_review_index (user_data c))) = true)
      by lia.
    assert (E3 : (default 0 (current_review_index (user_data c))
                  <? Z.of_nat (length (default [] (pending_mods_list (user_data c)))))
                 = true) by lia.
    unfold Query.get in Hget.
    unfold display_pending_mod_for_review, go_to_main_menu_owner, list_index.
    bot_simpl. rewrite HF, E1. bot_simpl. rewrite !E2, E3. cbn. rewrite Hlook.
    bot_simpl. unfold Query.get. rewrite Hget. bot_simpl. reflexivity.
Qed.

Lemma display_card_or_end_witness :
  (display_pending_mod_for_review env_ok
     (press_data the_owner 9 "review_action_skip")
     (mkCtx (mkStore [] [] [])
        (mkUserData None None None (Some [1]) (Some 1) None) [])).2 = Ok END.
Proof.
  destruct (display_card_or_end env_ok
              (press_data the_owner 9 "review_action_skip")
              (mkCtx (mkStore [] [] [])
                 (mkUserData None None None (Some [1]) (Some 1) None) [])
              eq_refl) as [Hend _].
  { vm_compute. discriminate. }
  rewrite Hend; [reflexivity|]. vm_compute. discriminate.
Defined.

(** * Category creation, statistics, the web pages *)

(** X12. Creating a category and then trying the same name again, in any
    case of its ASCII letters: the first confirmation appends one category
    with that name and a fresh key and reports success; the second changes
    nothing and reports that the category exists. *)
Theorem category_created_then_refused (env : Env) (ev ev' : Event) (c : Ctx)
    (buf : gmap string string) (cat_name other : string) (ud' : UserData) :
  FLASK_APP_AVAILABLE env = true →
  new_category (user_data c) = Some buf →
  buf !! "name" = Some cat_name →
  Query.category_ilike_first cat_name (categories (store c)) = None →
  Text.lower other = Text.lower cat_name →
  new_category ud' = Some {["name" := other]} →
  let c1 :=
    (confirm_add_category_callback env ev "confirm_add_category_yes" c).1 in
  let c2 :=
    (confirm_add_category_callback env ev' "confirm_add_category_yes"
       (mkCtx (store c1) ud' (trace c1))).1 in
  categories (store c1) =
    (categories (store c)
       ++ [Category.mk (next_id (Category.id <$> categories (store c)))
             cat_name])%list ∧
  mods (store c1) = mods (store c) ∧
  edit_message_text (CategoryAdded cat_name) [] ∈ trace c1 ∧
  new_category (user_data c1) = None ∧
  store c2 = store c1 ∧
  edit_message_text (CategoryExists other) [] ∈ trace c2.
Proof.
  intros HF Hbuf Hname Hfree Hcase Hbuf' c1 c2.
  assert (Hc1 : ∃ t,
    c1 = mkCtx (Query.add_category cat_name (store c))
           (set_buffer key_new_category None (user_data c))
           (trace c ++ [answer; edit_message_text (CategoryAdded cat_name) []]
              ++ t)%list).
  { subst c1. unfold confirm_add_category_callback,
      manage_categories_menu_callback.
    bot_simpl. rewrite HF, Hbuf. bot_simpl. rewrite Hname. bot_simpl.
    rewrite Hfree. bot_simpl.
    destruct (is_owner ev); bot_simpl; eexists; reflexivity. }
  destruct Hc1 as [t Hc1]. clearbody c1.
  assert (Hhit : is_Some (Query.category_ilike_first other
                            (categories (store c1)))).
  { rewrite Hc1. cbn.
    apply (find_some_of_member _ _
             (Category.mk (next_id (Category.id <$> categories (store c)))
                cat_name)).
    - apply elem_of_app. right. apply list_elem_of_In. cbn. tauto.
    - by apply like_same_up_to_case. }
  destruct Hhit as [hit Hhit].
  assert (Hc2 : ∃ t',
    c2 = mkCtx (store c1) (set_buffer key_new_category None ud')
           (trace c1 ++ [answer; edit_message_text (CategoryExists other) []]
              ++ t')%list).
  { subst c2. unfold Query.category_ilike_first in Hhit.
    unfold confirm_add_category_callback, manage_categories_menu_callback,
      Query.category_ilike_first.
    bot_simpl. rewrite HF. bot_simpl. rewrite Hbuf'. bot_simpl.
    rewrite lookup_singleton_eq.
    bot_simpl. rewrite Hhit. bot_simpl.
    destruct (is_owner ev'); bot_simpl; eexists; reflexivity. }
  destruct Hc2 as [t' Hc2].
  rewrite Hc2. rewrite Hc1 at 1 2 3 4. cbn.
  repeat split.
  - apply elem_of_app. right. apply list_elem_of_In. cbn. tauto.
  - apply elem_of_app. right. apply list_elem_of_In. cbn. tauto.
Qed.

Lemma category_created_then_refused_witness :
  categories (store
    (confirm_add_category_callback env_ok
       (press_data the_owner 3 "confirm_add_category_yes")
       "confirm_add_category_yes"
       (mkCtx (mkStore [] [Category.mk 4 "Maps"] [])
          (mkUserData None None (Some {["name" := "Adventure"]}) None None None)
          [])).1)
  = [Category.mk 4 "Maps"; Category.mk 5 "Adventure"].
Proof.
  apply (category_created_then_refused env_ok
           (press_data the_owner 3 "confirm_add_category_yes")
           (press_data the_owner 9 "confirm_add_category_yes")
           (mkCtx (mkStore [] [Category.mk 4 "Maps"] [])
              (mkUserData None None (Some {["name" := "Adventure"]}) None None
                 None) [])
           {["name" := "Adventure"]} "Adventure" "ADVENTURE"
           (mkUserData None None (Some {["name" := "ADVENTURE"]}) None None
              None));
    reflexivity.
Defined.

Lemma status_counts (ms : list Mod.t) :
  let count st := length (Query.filter_by_status st ms) in
  (count approved + count pending_approval + count rejected ≤ length ms)%nat ∧
  (Forall known_status ms →
   (count approved + count pending_approval + count rejected)%nat = length ms).
Proof.
  cbn. induction ms as [|m ms [IHle IHeq]]; [by split|].
  unfold Query.filter_by_status in *. cbn [List.filter].
  split.
  - destruct (String.eqb_spec (Mod.status m) approved) as [E|_];
      [rewrite E; cbn; lia|].
    destruct (String.eqb_spec (Mod.status m) pending_approval) as [E|_];
      [rewrite E; cbn; lia|].
    destruct (String.eqb_spec (Mod.status m) rejected) as [E|_]; cbn; lia.
  - intros Hall. apply Forall_cons in Hall as [Hm Hall].
    specialize (IHeq Hall).
    destruct Hm as [E|[E|E]]; rewrite E; cbn; lia.
Qed.

(** X13. The statistics the owner sees: the total is the number of rows
    and the three other figures are the numbers of approved, pending and
    rejected rows; these never add up to more than the total, and add up
    to it when every row has one of the three statuses.  The store and the
    session data are not changed and no conversation state is set. *)
Theorem view_stats_counts (env : Env) (ev : Event) (c : Ctx) :
  FLASK_APP_AVAILABLE env = true →
  user_id (effective_user ev) = OWNER_TELEGRAM_ID →
  let count st :=
    Z.of_nat (length (Query.filter_by_status st (mods (store c)))) in
  let total := Z.of_nat (length (mods (store c))) in
  view_stats_callback env ev c =
    (mkCtx (store c) (user_data c)
       (trace c ++
        [answer;
         edit_message_text
           (Stats total (count approved) (count pending_approval)
              (count rejected)) [];
         edit_message_text
           (MainMenu (first_name (effective_user ev)) (count pending_approval))
           main_menu_keyboard])%list,
     Ok Unchanged) ∧
  count approved + count pending_approval + count rejected ≤ total ∧
  (Forall known_status (mods (store c)) →
   count approved + count pending_approval + count rejected = total).
Proof.
  intros HF Howner count total.
  assert (Hown : is_owner ev = true) by (unfold is_owner; lia).
  destruct (status_counts (mods (store c))) as [Hle Heq]. cbn in Hle, Heq.
  subst count total. cbn beta.
  split; [|split; [lia|intros Hall; specialize (Heq Hall); lia]].
  unfold view_stats_callback, go_to_main_menu_owner.
  bot_simpl. rewrite HF, Hown. bot_simpl. by destruct c.
Qed.

Lemma view_stats_counts_witness :
  (view_stats_callback env_ok (press_data the_owner 9 "view_stats")
     (mkCtx (db three_pending) empty_user_data [])).2 = Ok Unchanged.
Proof.
  destruct (view_stats_counts env_ok (press_data the_owner 9 "view_stats")
              (mkCtx (db three_pending) empty_user_data []) eq_refl eq_refl)
    as (Hout & _).
  by rewrite Hout.
Defined.

(** ** Search *)

Lemma like_percent_all (s : string) : Text.like "%" s = true.
Proof.
  induction s as [|c s IH]; [reflexivity|].
  cbn in *. by rewrite IH.
Qed.

Lemma like_any (p a t : string) :
  Text.like p t = true → Text.like (String "%" p) (a +:+ t) = true.
Proof.
  intros H. induction a as [|c a IH].
  - change ("" +:+ t) with t. destruct t; cbn in *; rewrite H; reflexivity.
  - change (String c a +:+ t) with (String c (a +:+ t)).
    cbn in *. rewrite IH. apply orb_true_r.
Qed.

Lemma like_prefix_up_to_case (q hit r b : string) :
  Text.lower hit = Text.lower q → Text.like r b = true →
  Text.like (q +:+ r) (hit +:+ b) = true.
Proof.
  intros Hcase Hr. revert hit Hcase.
  induction q as [|c q IH]; intros [|d hit] Hcase; cbn in Hcase;
    try discriminate; [exact Hr|].
  injection Hcase as Hc Hq.
  change (String c q +:+ r) with (String c (q +:+ r)).
  change (String d hit +:+ b) with (String d (hit +:+ b)).
  pose proof (IH hit Hq) as H. cbn [Text.like].
  destruct (Ascii.eqb_spec c "%") as [->|_].
  - apply orb_true_iff. right.
    destruct (hit +:+ b); cbn in *; rewrite H; reflexivity.
  - destruct (Ascii.eqb_spec c "_") as [->|_].
    + by rewrite (lower_ascii_wildcard "_" d) by auto.
    + rewrite H, Hc, Ascii.eqb_refl. done.
Qed.

Lemma order_by_elem_2 {A} (le : A → A → bool) (y : A) (l : list A) :
  y ∈ l → y ∈ Query.order_by le l.
Proof. intros Hy. by rewrite order_by_Permutation. Qed.

(** X14. The search page finds every approved mod whose name contains the
    query, the case of ASCII letters aside. *)
Theorem search_finds_names_containing (s : Store) (m : Mod.t)
    (query before hit after : string) :
  query ≠ "" →
  m ∈ mods s →
  Mod.status m = approved →
  Mod.name m = before +:+ hit +:+ after →
  Text.lower hit = Text.lower query →
  m ∈ Routes.search s query.
Proof.
  intros Hq Hin Hst Hname Hcase. unfold Routes.search.
  apply String.eqb_neq in Hq. rewrite Hq.
  apply order_by_elem_2, list_elem_of_In, filter_In.
  split; [by apply list_elem_of_In|].
  apply andb_true_iff. split; [|by apply is_approved_spec].
  rewrite Hname. change ("%" +:+ query +:+ "%") with (String "%" (query +:+ "%")).
  apply like_any, like_prefix_up_to_case; [done|apply like_percent_all].
Qed.

Lemma search_finds_names_containing_witness :
  Mod.mk 1 "Sky Castle" "d" "l" None None 5 approved 1 1 0 0
  ∈ Routes.search
      (mkStore [Mod.mk 1 "Sky Castle" "d" "l" None None 5 approved 1 1 0 0]
         [] []) "CAST".
Proof.
  apply (search_finds_names_containing _ _ "CAST" "Sky " "Cast" "le");
    try done.
  apply list_elem_of_In. cbn. tauto.
Defined.

(** X15. The query goes into the pattern as it is: a query made of [%]
    signs only lists every approved mod. *)
Theorem search_percent_lists_all (s : Store) (m : Mod.t) (query : string) :
  query ≠ "" →
  all_chars (Ascii.eqb "%") query = true →
  m ∈ mods s →
  Mod.status m = approved →
  m ∈ Routes.search s query.
Proof.
  intros Hq Hall Hin Hst. unfold Routes.search.
  apply String.eqb_neq in Hq. rewrite Hq.
  apply order_by_elem_2, list_elem_of_In, filter_In.
  split; [by apply list_elem_of_In|].
  apply andb_true_iff. split; [|by apply is_approved_spec].
  change ("%" +:+ query +:+ "%") with (String "%" (query +:+ "%")).
  apply (like_any _ ""). clear Hq.
  generalize (Mod.name m) as t.
  induction query as [|c q IH]; intros t; [apply like_percent_all|].
  cbn [all_chars] in Hall. apply andb_true_iff in Hall as [Hc Hall].
  apply Ascii.eqb_eq in Hc as <-.
  change (String "%" q +:+ "%") with (String "%" (q +:+ "%")).
  apply (like_any _ ""). by apply IH.
Qed.

Lemma search_percent_lists_all_witness :
  Mod.mk 1 "Sky Castle" "d" "l" None None 5 approved 1 1 0 0
  ∈ Routes.search
      (mkStore [Mod.mk 1 "Sky Castle" "d" "l" None None 5 approved 1 1 0 0]
         [] []) "%".
Proof.
  apply (search_percent_lists_all _ _ "%"); try done.
  apply list_elem_of_In. cbn. tauto.
Defined.

(** ** The front page *)

(** X16. The front page shows at most ten mods, newest first, and an
    approved mod is left out only when ten are shown, none of them older
    than it. *)
Theorem index_latest_ten (s : Store) :
  let shown := (Routes.index s).1 in
  (length shown ≤ 10)%nat ∧
  StronglySorted newer_or_same shown ∧
  ∀ m, m ∈ mods s → Mod.status m = approved → m ∉ shown →
       length shown = 10%nat ∧
       ∀ x, x ∈ shown → Mod.created_at m ≤ Mod.created_at x.
Proof.
  cbn.
  set (l := Query.order_by Query.created_at_desc
              (Query.filter_by_status approved (mods s))).
  assert (Hsorted : StronglySorted newer_or_same l).
  { apply (order_by_sorted Query.created_at_desc newer_or_same);
      unfold Query.created_at_desc, newer_or_same; intros; lia. }
  rewrite <- (take_drop 10 l) in Hsorted.
  split; [rewrite length_take; lia|].
  split; [by apply StronglySorted_app_1_l in Hsorted|].
  intros m Hin Hst Hout.
  assert (Hm : m ∈ l).
  { apply order_by_elem_2, list_elem_of_In, filter_In.
    split; [by apply list_elem_of_In|]. by apply String.eqb_eq. }
  rewrite <- (take_drop 10 l) in Hm.
  apply elem_of_app in Hm as [Hm|Hm]; [done|].
  split.
  - rewrite length_take.
    destruct (decide (10 ≤ length l)%nat); [lia|].
    rewrite drop_ge in Hm by lia. by apply elem_of_nil in Hm.
  - intros x Hx.
    by apply (StronglySorted_app_1_elem_of _ _ _ x m) in Hsorted.
Qed.

(** * What users other than the owner can reach *)

Ltac show_suggested :=
  unfold owner_flows_closed, at_most_suggested; cbn;
  repeat split; try done;
  first [by left | right; eexists; repeat split; reflexivity].

Ltac non_owner_handler Hno :=
  unfold_handlers;
  unfold review_suggested_mods_start_callback, error_handler, is_owner in *;
  unfold_handlers; bot_simpl; rewrite ?Hno; bot_simpl;
  repeat (first [progress rewrite ?Hno | case_match]; simplify_eq; bot_simpl);
  try (exfalso; rewrite Hno in *; cbn in *; congruence);
  show_suggested.

Lemma conversation_non_owner env ev d ud s i u cb :
  is_owner ev = false →
  conversation_check (conversation i)
    (conv_state i (mkConvStates None s None None)) u = Some cb →
  let '(c, ret) :=
    match cb env ev (mkCtx d ud []) with
    | (c, Ok ret) => (c, Some ret)
    | (c, Raise _) => ((error_handler c).1, None)
    end in
  owner_flows_closed (next_conv (Some i) ret (mkConvStates None s None None)) ∧
  at_most_suggested (user_id (effective_user ev)) d (store c).
Proof.
  intros Hno Hc.
  destruct i; cbn [conv_state add_mod_state suggest_mod_state
                   review_mods_state manage_categories_state] in Hc.
  - destruct u; cbn in Hc; repeat case_match; simplify_eq;
      non_owner_handler Hno.
  - destruct s as [[]|]; destruct u; cbn in Hc; repeat case_match;
      simplify_eq; non_owner_handler Hno.
  - destruct u; cbn in Hc; repeat case_match; simplify_eq;
      non_owner_handler Hno.
  - destruct u; cbn in Hc; repeat case_match; simplify_eq;
      non_owner_handler Hno.
Qed.

Lemma plain_non_owner env ev d ud u cb :
  is_owner ev = false →
  CommandHandler "start" start_command u = Some cb ∨
  CallbackQueryHandler (no_data view_stats_callback)
    (Pattern.one_of ["view_stats"]) u = Some cb ∨
  AnyCommandHandler unknown_command u = Some cb →
  ∃ c ret, cb env ev (mkCtx d ud []) = (c, Ok ret) ∧ store c = d.
Proof.
  intros Hno Hc. destruct u; cbn in Hc; destruct Hc as [Hc|[Hc|Hc]];
    repeat case_match; simplify_eq;
    unfold_handlers; unfold is_owner in *; bot_simpl; rewrite ?Hno; bot_simpl;
    repeat (first [progress rewrite ?Hno | case_match]; simplify_eq; bot_simpl);
    eexists _, _; (split; [reflexivity|]); done.
Qed.

Lemma handle_non_owner env ev d sess d' sess' t :
  user_id (effective_user ev) ≠ OWNER_TELEGRAM_ID →
  owner_flows_closed (conv sess) →
  handle env ev d sess = Some (d', sess', t) →
  owner_flows_closed (conv sess') ∧
  at_most_suggested (user_id (effective_user ev)) d d'.
Proof.
  intros Hne Hclosed Hh.
  assert (Hno : is_owner ev = false) by (unfold is_owner; lia).
  unfold handle in Hh.
  destruct (select application (conv sess) (update ev)) as [[target cb]|] eqn:Hsel;
    [|discriminate].
  apply select_cases in Hsel as [(-> & Hplain)|(i & -> & Hconv)].
  - destruct (plain_non_owner env ev d (data sess) _ _ Hno Hplain)
      as (c & ret & Hcb & Hst).
    rewrite Hcb in Hh. injection Hh as <- <- <-. rewrite Hst. cbn.
    split; [done|]. unfold at_most_suggested. by repeat split; [..|left].
  - destruct sess as [ud [a s r m]]. cbn [data conv] in *.
    destruct Hclosed as (Ha & Hr & Hm). cbn in Ha, Hr, Hm. subst a r m.
    pose proof (conversation_non_owner env ev d ud s i _ cb Hno Hconv) as Hc.
    destruct (cb env ev (mkCtx d ud [])) as [c [ret|e]];
      injection Hh as <- <- <-; exact Hc.
Qed.

Lemma process_update_closed env w ev :
  only_owner_in_owner_flows w →
  only_owner_in_owner_flows (process_update env w ev) ∧
  (user_id (effective_user ev) ≠ OWNER_TELEGRAM_ID →
   at_most_suggested (user_id (effective_user ev)) (db w)
     (db (process_update env w ev))).
Proof.
  intros Hall.
  pose proof (process_update_view env w ev) as Hview. cbv zeta in Hview.
  destruct (handle env ev (db w) _) as [[[d s] t]|] eqn:Hh.
  - destruct Hview as (Hdb & Hs & _). split.
    + intros uid Huid.
      destruct (decide (user_id (effective_user ev) = uid)) as [<-|Hne].
      * rewrite Hs. by eapply handle_non_owner; [| |exact Hh]; [|apply Hall].
      * rewrite process_update_other by done. by apply Hall.
    + intros Hne. rewrite Hdb.
      by eapply handle_non_owner; [| |exact Hh]; [|apply Hall].
  - rewrite Hview. split; [done|]. intros _.
    unfold at_most_suggested. by repeat split; [..|left].
Qed.

(** X17. Users other than the owner never get into the add, review or
    category conversations, whatever anyone sends; and a run of updates
    that all come from such users leaves categories, administrators and
    every existing mod row as they were: all it can add are rows with
    status pending approval, uploaded by one of the senders. *)
Theorem privileges_stay_with_owner (env : Env) (w : World) (evs : list Event) :
  only_owner_in_owner_flows w →
  only_owner_in_owner_flows (run env w evs) ∧
  (Forall (λ ev, user_id (effective_user ev) ≠ OWNER_TELEGRAM_ID) evs →
   categories (db (run env w evs)) = categories (db w) ∧
   admins (db (run env w evs)) = admins (db w) ∧
   ∃ new, mods (db (run env w evs)) = (mods (db w) ++ new)%list ∧
          Forall (λ m, Mod.status m = pending_approval ∧
                       Mod.uploader_telegram_id m ≠ OWNER_TELEGRAM_ID) new).
Proof.
  revert w. induction evs as [|ev evs IH]; intros w Hall; cbn.
  - split; [done|]. intros _. repeat split. exists []. by rewrite app_nil_r.
  - destruct (process_update_closed env w ev Hall) as [Hall' Hstep].
    destruct (IH _ Hall') as [Hall'' Hrest]. unfold run in Hall'', Hrest.
    split; [done|]. intros Hevs. apply Forall_cons in Hevs as [Hev Hevs].
    destruct (Hstep Hev) as (Hc & Ha & Hm).
    destruct (Hrest Hevs) as (Hc' & Ha' & new & Hm' & Hnew).
    rewrite Hc', Ha', Hm', Hc, Ha. repeat split.
    destruct Hm as [->|(m & -> & Hst & Hup)].
    + by exists new.
    + exists (m :: new). split; [by rewrite <- app_assoc|].
      constructor; [|done]. split; [done|]. by rewrite Hup.
Qed.

Lemma privileges_stay_with_owner_witness :
  only_owner_in_owner_flows
    (run env_ok empty_world
       (press_data alice 1 "add_mod_start"
          :: mod_flow "suggest_new_mod_start" "confirm_suggest_mod_yes" alice
               Z.of_nat Z.of_nat test_mod)).
Proof.
  apply (privileges_stay_with_owner env_ok empty_world).
  intros uid _. unfold owner_flows_closed. cbn. done.
Defined.

(** X18. A text or a photo that no open flow of the sender is waiting for
    (a text where a photo is due, a photo where a text is due, anything
    at a confirm step or outside of every flow) is handled by nobody: the
    system stays exactly as it is and nothing is answered. *)
Theorem unawaited_message_ignored (env : Env) (w : World) (ev : Event) :
  is_message (update ev) = true →
  (∀ i st, conv_state i (conv (session w (user_id (effective_user ev))))
           = Some st → awaited st (update ev) = false) →
  process_update env w ev = w.
Proof.
  intros Hmsg Hnone. unfold process_update, handle.
  destruct (select application _ (update ev)) as [[target cb]|] eqn:Hsel;
    [exfalso|done].
  apply select_cases in Hsel as [(_ & Hplain)|(i & _ & Hconv)].
  - destruct (update ev); cbn in Hmsg, Hplain; try discriminate;
      destruct Hplain as [?|[?|?]]; discriminate.
  - specialize (Hnone i).
    destruct (conv_state i _) as [st|].
    + specialize (Hnone st eq_refl).
      destruct (update ev); try discriminate;
        destruct i, st; cbn in Hconv, Hnone; discriminate.
    + destruct (update ev); try discriminate; destruct i; discriminate.
Qed.

Lemma unawaited_message_ignored_witness :
  process_update env_ok reviewing (mkEvent the_owner 150 (text_message 1 "ok"))
  = reviewing.
Proof.
  apply (unawaited_message_ignored env_ok reviewing
           (mkEvent the_owner 150 (text_message 1 "ok")) eq_refl).
  intros i st. destruct i; vm_compute; intros [= <-]; reflexivity.
Defined.

(** * The category flow through the registered handlers *)

Ltac category_flow_simpl HF :=
  repeat (progress (cbn;
    unfold manage_categories_menu_callback, add_category_start_callback,
      get_new_category_name, confirm_add_category_callback, is_owner,
      Query.category_ilike_first;
    rewrite ?HF; map_simpl; bot_simpl)).

Lemma category_flow_one_user u clock message_id name last :
  Forall (λ ev, user_id (effective_user ev) = user_id u)
    (category_flow u clock message_id name last).
Proof. unfold category_flow. repeat constructor. Qed.

(** X19. The owner, outside the add, suggest and category flows, goes
    through the category flow: confirmed, the store gains the category
    with the name as typed and a fresh key unless the name matches an
    existing category, in which case the store is unchanged; cancelled,
    the store is unchanged.  Either way the buffer is dropped and the
    conversation is back at the category menu. *)
Theorem owner_category_flow (env : Env) (w : World) (fn : string)
    (un : option string) (clock : nat → Z) (message_id : Z) (name : string) :
  FLASK_APP_AVAILABLE env = true →
  add_mod_state (conv (session w OWNER_TELEGRAM_ID)) = None →
  suggest_mod_state (conv (session w OWNER_TELEGRAM_ID)) = None →
  manage_categories_state (conv (session w OWNER_TELEGRAM_ID)) = None →
  let u := mkUser OWNER_TELEGRAM_ID fn un in
  let confirmed :=
    run env w (category_flow u clock message_id name
                 "confirm_add_category_yes") in
  let cancelled :=
    run env w (category_flow u clock message_id name
                 "confirm_add_category_cancel") in
  db confirmed =
    match Query.category_ilike_first name (categories (db w)) with
    | Some _ => db w
    | None => Query.add_category name (db w)
    end ∧
  db cancelled = db w ∧
  new_category (data (session confirmed OWNER_TELEGRAM_ID)) = None ∧
  new_category (data (session cancelled OWNER_TELEGRAM_ID)) = None ∧
  manage_categories_state (conv (session confirmed OWNER_TELEGRAM_ID))
    = Some CAT_MANAGE_MENU ∧
  manage_categories_state (conv (session cancelled OWNER_TELEGRAM_ID))
    = Some CAT_MANAGE_MENU.
Proof.
  intros HF Ha Hs Hm u confirmed cancelled.
  destruct (session w OWNER_TELEGRAM_ID) as [ud [a s r m]] eqn:Hsess.
  cbn in Ha, Hs, Hm. subst a s m.
  assert (Hrun : ∀ last,
    let '(d, s', _) :=
      run_session env (category_flow u clock message_id name last) (db w)
        (session w OWNER_TELEGRAM_ID) [] in
    db (run env w (category_flow u clock message_id name last)) = d ∧
    session (run env w (category_flow u clock message_id name last))
      OWNER_TELEGRAM_ID = s').
  { intros last.
    destruct (run_session env _ (db w) (session w OWNER_TELEGRAM_ID) [])
      as [[d s'] t] eqn:Hrun.
    destruct (run_one_user env OWNER_TELEGRAM_ID _
                (category_flow_one_user u clock message_id name last)
                w [] _ _ _ Hrun) as (Hdb & Hs & _).
    done. }
  pose proof (Hrun "confirm_add_category_yes") as Hyes.
  pose proof (Hrun "confirm_add_category_cancel") as Hno. clear Hrun.
  fold confirmed in Hyes. fold cancelled in Hno.
  rewrite Hsess in Hyes, Hno.
  assert (Hreview : ∀ st u,
            u ∈ [callback_query "manage_categories_menu";
                 callback_query "add_category_start";
                 text_message message_id name;
                 callback_query "confirm_add_category_yes";
                 callback_query "confirm_add_category_cancel"] →
            conversation_check review_mods_conv_handler st u = None).
  { intros st u' Hu.
    repeat (apply elem_of_cons in Hu as [->|Hu]);
      [..|by apply elem_of_nil in Hu]; by destruct st as [[]|]. }
  assert (Hin : ∀ (u' : Update) l, In u' l → u' ∈ l)
    by (intros; by apply list_elem_of_In).
  unfold category_flow, run_session, handle in Hyes, Hno.
  revert Hyes Hno.
  repeat (progress (category_flow_simpl HF;
                    rewrite ?Hreview by (apply Hin; cbn; tauto))).
  destruct (List.find _ (categories (db w)));
    repeat (progress (category_flow_simpl HF;
                      rewrite ?Hreview by (apply Hin; cbn; tauto)));
    intros [-> ->] [-> ->]; done.
Qed.

Lemma owner_category_flow_witness :
  db (run env_ok empty_world
        (category_flow the_owner Z.of_nat 7 "Maps" "confirm_add_category_yes"))
  = mkStore [] [Category.mk 1 "Maps"] [].
Proof.
  apply (owner_category_flow env_ok empty_world "Owner" None Z.of_nat 7 "Maps");
    reflexivity.
Defined.

(** X20. The conversations are asked in the order of their registration:
    while the add flow of a user waits for a text, a text of that user goes
    to the add flow and to no other flow, also when the category flow waits
    for a name; the store, the other buffers and the states of the other
    conversations stay as they are. *)
Theorem text_goes_to_first_waiting_flow (env : Env) (w : World) (u : User)
    (now message_id : Z) (text : string) (st : State) :
  add_mod_state (conv (session w (user_id u))) = Some st →
  st ∈ [ADD_MOD_NAME; ADD_MOD_DESCRIPTION; ADD_MOD_LINK] →
  let w' := process_update env w
              (mkEvent u now (text_message message_id text)) in
  let before := session w (user_id u) in
  let after := session w' (user_id u) in
  db w' = db w ∧
  suggest_mod_state (conv after) = suggest_mod_state (conv before) ∧
  review_mods_state (conv after) = review_mods_state (conv before) ∧
  manage_categories_state (conv after) = manage_categories_state (conv before) ∧
  suggested_mod (data after) = suggested_mod (data before) ∧
  new_category (data after) = new_category (data before).
Proof.
  intros Hst Haw w' before after. subst before after.
  pose proof (process_update_view env w
                (mkEvent u now (text_message message_id text))) as Hview.
  cbv zeta in Hview. cbn [effective_user] in Hview. fold w' in Hview.
  destruct (session w (user_id u)) as [ud [a s r m]]. cbn in Hst. subst a.
  unfold handle in Hview. cbn [update conv data] in Hview.
  repeat (apply elem_of_cons in Haw as [->|Haw]);
    [| | |by apply elem_of_nil in Haw];
    cbn in Hview;
    unfold get_owner_mod_name, get_owner_mod_description, get_owner_mod_link,
      _get_mod_name, _get_mod_description, _get_mod_link, error_handler
      in Hview;
    revert Hview; bot_simpl;
    destruct (current_mod ud); bot_simpl; intros (Hdb & Hs & _);
    rewrite Hs; done.
Qed.

Lemma text_goes_to_first_waiting_flow_witness :
  manage_categories_state
    (conv (session
       (process_update env_ok
          (mkWorld (mkStore [] [] [])
             {[OWNER_TELEGRAM_ID :=
                 mkSession
                   (mkUserData (Some ∅) None (Some ∅) None None None)
                   (mkConvStates (Some ADD_MOD_NAME) None None
                      (Some ADD_CAT_GET_NAME))]} [])
          (mkEvent the_owner 3 (text_message 1 "Maps")))
       OWNER_TELEGRAM_ID))
  = Some ADD_CAT_GET_NAME.
Proof.
  destruct (text_goes_to_first_waiting_flow env_ok
              (mkWorld (mkStore [] [] [])
                 {[OWNER_TELEGRAM_ID :=
                     mkSession
                       (mkUserData (Some ∅) None (Some ∅) None None None)
                       (mkConvStates (Some ADD_MOD_NAME) None None
                          (Some ADD_CAT_GET_NAME))]} [])
              the_owner 3 1 "Maps" ADD_MOD_NAME)
    as (_ & _ & _ & Hm & _).
  - reflexivity.
  - apply list_elem_of_In. cbn. tauto.
  - etrans; [exact Hm|reflexivity].
Defined.

(** X21. The category list shows every category of the store exactly once,
    with its name and key, or the no-categories text when there is none;
    it changes neither store nor session data and stays at the category
    menu. *)
Theorem list_all_categories_complete (env : Env) (c : Ctx) :
  FLASK_APP_AVAILABLE env = true →
  ∃ text keyboard,
    list_all_categories_callback env c =
      (mkCtx (store c) (user_data c)
         (trace c ++ [answer; edit_message_text text keyboard])%list,
       Ok (Goto CAT_MANAGE_MENU)) ∧
    (categories (store c) = [] → text = NoCategories) ∧
    (categories (store c) ≠ [] →
     ∃ cats, text = CategoryList ((λ k, (Category.name k, Category.id k)) <$> cats) ∧
             Permutation cats (categories (store c))).
Proof.
  intros HF. unfold list_all_categories_callback. bot_simpl. rewrite HF.
  bot_simpl. destruct c as [s ud t]. cbn.
  eexists _, _. split; [reflexivity|].
  pose proof (order_by_Permutation
                (λ a b, String.leb (Category.name a) (Category.name b))
                (categories s)) as Hperm.
  destruct (Query.order_by _ (categories s)) as [|k cats] eqn:E.
  - split; [done|]. intros Hne. apply Permutation_nil in Hperm. done.
  - split.
    + intros Hnil. rewrite Hnil in Hperm.
      symmetry in Hperm. by apply Permutation_nil in Hperm.
    + intros _. by exists (k :: cats).
Qed.

Lemma list_all_categories_complete_witness :
  ∃ text keyboard,
    list_all_categories_callback env_ok
      (mkCtx (mkStore [] [Category.mk 2 "Maps"; Category.mk 1 "Adventure"] [])
         empty_user_data [])
    = (mkCtx (mkStore [] [Category.mk 2 "Maps"; Category.mk 1 "Adventure"] [])
         empty_user_data [answer; edit_message_text text keyboard],
       Ok (Goto CAT_MANAGE_MENU)).
Proof.
  destruct (list_all_categories_complete env_ok
              (mkCtx (mkStore [] [Category.mk 2 "Maps";
                                  Category.mk 1 "Adventure"] [])
                 empty_user_data []) eq_refl)
    as (text & keyboard & Hout & _).
  by exists text, keyboard.
Defined.

(** * What the bot can do to the store *)

Lemma grows_refl d : grows d d.
Proof.
  unfold grows. repeat split; try (exists []; by rewrite app_nil_r).
Qed.

Lemma has_owner_row_app d l :
  has_owner_row d →
  has_owner_row (mkStore (mods d) (categories d) (admins d ++ l)).
Proof.
  unfold has_owner_row. cbn. intros [a Ha].
  exists a. induction (admins d) as [|x xs IH]; cbn in *; [done|].
  destruct (Admin.telegram_id x =? OWNER_TELEGRAM_ID); [done|by apply IH].
Qed.

Lemma grows_trans d1 d2 d3 : grows d1 d2 → grows d2 d3 → grows d1 d3.
Proof.
  intros (Hm1 & Hc1 & Ha1) (Hm2 & Hc2 & Ha2).
  destruct Hm1 as [m1 Hm1], Hm2 as [m2 Hm2], Hc1 as [c1 Hc1], Hc2 as [c2 Hc2].
  repeat split.
  - exists (m1 ++ m2)%list. by rewrite Hm2, Hm1, app_assoc.
  - exists (c1 ++ c2)%list. by rewrite Hc2, Hc1, app_assoc.
  - intros Hhas. specialize (Ha1 Hhas). rewrite <- Ha1.
    apply Ha2. unfold has_owner_row in *. by rewrite Ha1.
Qed.

Lemma ids_set_status mod_id status now ms :
  Mod.id <$> List.map (λ m, if Mod.id m =? mod_id
                            then Mod.set_status status now m else m) ms
  = Mod.id <$> ms.
Proof.
  induction ms as [|r ms IH]; cbn; [done|].
  rewrite <- IH. by destruct (Mod.id r =? mod_id).
Qed.

Ltac show_grows :=
  unfold grows, has_owner_row, Query.add_mod, Query.update_status,
    Query.add_category, with_mods, with_categories, with_admins; cbn;
  split; [|split];
  [ first [ exists []; by rewrite app_nil_r
          | eexists; rewrite fmap_app; reflexivity
          | exists []; rewrite app_nil_r; apply ids_set_status ]
  | first [ exists []; by rewrite app_nil_r | by eexists ]
  | first [ done
          | intros [? ?]; cbn in *; congruence ] ].

Ltac grows_handler :=
  unfold_handlers; unfold review_suggested_mods_start_callback, error_handler
    in *;
  unfold_handlers; cbn in *; simplify_eq; bot_simpl;
  repeat (case_match; simplify_eq; bot_simpl);
  cbn in *; simplify_eq; show_grows.

Lemma conversation_grows env ev d ud a s r m i u cb :
  conversation_check (conversation i)
    (conv_state i (mkConvStates a s r m)) u = Some cb →
  grows d
    (store match cb env ev (mkCtx d ud []) with
           | (c, Ok _) => c
           | (c, Raise _) => (error_handler c).1
           end).
Proof.
  intros Hc.
  destruct i; cbn [conv_state add_mod_state suggest_mod_state
                   review_mods_state manage_categories_state] in Hc.
  - destruct a as [[]|]; destruct u; cbn in Hc;
      unfold Text.match_prefix in Hc; repeat case_match; simplify_eq;
      grows_handler.
  - destruct s as [[]|]; destruct u; cbn in Hc;
      unfold Text.match_prefix in Hc; repeat case_match; simplify_eq;
      grows_handler.
  - destruct r as [[]|]; destruct u; cbn in Hc;
      unfold Text.match_prefix in Hc; repeat case_match; simplify_eq;
      grows_handler.
  - destruct m as [[]|]; destruct u; cbn in Hc;
      unfold Text.match_prefix in Hc; repeat case_match; simplify_eq;
      grows_handler.
Qed.

Lemma plain_grows env ev d ud u cb :
  CommandHandler "start" start_command u = Some cb ∨
  CallbackQueryHandler (no_data view_stats_callback)
    (Pattern.one_of ["view_stats"]) u = Some cb ∨
  AnyCommandHandler unknown_command u = Some cb →
  ∃ c ret, cb env ev (mkCtx d ud []) = (c, Ok ret) ∧ grows d (store c).
Proof.
  intros Hc. destruct u; cbn in Hc; destruct Hc as [Hc|[Hc|Hc]];
    repeat case_match; simplify_eq;
    unfold_handlers; bot_simpl;
    repeat (case_match; simplify_eq; bot_simpl);
    eexists _, _; (split; [reflexivity|]); show_grows.
Qed.

Lemma handle_grows env ev d sess d' sess' t :
  handle env ev d sess = Some (d', sess', t) → grows d d'.
Proof.
  intros Hh. unfold handle in Hh.
  destruct (select application (conv sess) (update ev)) as [[target cb]|] eqn:Hsel;
    [|discriminate].
  apply select_cases in Hsel as [(-> & Hplain)|(i & -> & Hconv)].
  - destruct (plain_grows env ev d (data sess) _ _ Hplain)
      as (c & ret & Hcb & Hg).
    rewrite Hcb in Hh. by injection Hh as <- <- <-.
  - destruct sess as [ud [a s r m]]. cbn [data conv] in *.
    pose proof (conversation_grows env ev d ud a s r m i _ cb Hconv) as Hg.
    destruct (cb env ev (mkCtx d ud [])) as [c [ret|e]];
      by injection Hh as <- <- <-.
Qed.

Lemma process_update_grows env w ev :
  grows (db w) (db (process_update env w ev)).
Proof.
  pose proof (process_update_view env w ev) as Hview. cbv zeta in Hview.
  destruct (handle env ev (db w) _) as [[[d s] t]|] eqn:Hh.
  - destruct Hview as (-> & _). by eapply handle_grows.
  - rewrite Hview. apply grows_refl.
Qed.

Lemma run_keeps_admins env w evs :
  has_owner_row (db w) → admins (db (run env w evs)) = admins (db w).
Proof.
  revert w. induction evs as [|ev evs IH]; intros w Hhas; cbn; [done|].
  destruct (process_update_grows env w ev) as (_ & _ & Ha).
  specialize (Ha Hhas). unfold run in IH. rewrite IH; [done|].
  unfold has_owner_row in *. by rewrite Ha.
Qed.

(** X22. The bot never deletes: whatever updates arrive from whomever,
    the keys of the mods and the categories before the run are a prefix of
    those after it (rows are only appended, categories never changed), and
    once the admins table holds the owner's row it is never written
    again. *)
Theorem store_only_grows (env : Env) (w : World) (evs : list Event) :
  let w' := run env w evs in
  (∃ new, Mod.id <$> mods (db w') = (Mod.id <$> mods (db w)) ++ new)%list ∧
  (∃ new, categories (db w') = categories (db w) ++ new)%list ∧
  (has_owner_row (db w) → admins (db w') = admins (db w)).
Proof.
  cbv zeta. fold (grows (db w) (db (run env w evs))).
  revert w. induction evs as [|ev evs IH]; intros w; cbn; [apply grows_refl|].
  eapply grows_trans; [apply process_update_grows|apply IH].
Qed.

(** X23. The start of the web application leaves the owner's row in the
    admins table (adding it when there is none, and changing nothing when
    there is one); from the store it leaves, no run of the bot changes the
    admins table: [/start] by the owner finds the row and adds no second
    one. *)
Theorem admins_fixed_after_setup (env : Env) (now : Z) (s : Store)
    (ss : gmap Z Session) (h : list (Z * Effect)) (evs : list Event) :
  let d := initial_setup now s in
  has_owner_row d ∧
  (has_owner_row s → d = s) ∧
  mods d = mods s ∧ categories d = categories s ∧
  admins (db (run env (mkWorld d ss h) evs)) = admins d.
Proof.
  intros d.
  assert (Hhas : has_owner_row d).
  { subst d. unfold initial_setup, has_owner_row.
    change 7839645457 with OWNER_TELEGRAM_ID.
    destruct (List.find _ (admins s)) as [a|] eqn:E.
    - rewrite E. by exists a.
    - cbn. rewrite (find_app_none _ _ _ E). cbn. by eexists. }
  split; [done|]. split.
  - subst d. unfold initial_setup, has_owner_row.
    change 7839645457 with OWNER_TELEGRAM_ID. by intros [a ->].
  - split; [|split].
    + subst d. unfold initial_setup. by destruct (List.find _ _).
    + subst d. unfold initial_setup. by destruct (List.find _ _).
    + by apply (run_keeps_admins env (mkWorld d ss h) evs).
Qed.
